(** * ai-pin-generator-server: a shallow embedding of [app.js]

    The repository holds two variants of one Express server: an OpenAI
    (DALL-E) variant and a Stability AI variant.  Both share the content
    moderation function; the Stability variant adds the three stacked rate
    limiters, the [/save-image] route and the status routes.

    JavaScript values are embedded as the inductive type [Value], thrown
    exceptions as [Exn], asynchronous and effectful calls (fetch, the OpenAI
    client, the file system, the UUID generator, the console) as events of a
    small free monad [Prog].  Strings are Rocq strings, read as ASCII text:
    [toLowerCase] is JavaScript's on strings of ASCII characters
    ([is_ascii]), and the characterisation of the terms that the Moderation
    Filter matches is stated for such prompts.  JSON numbers are restricted
    to integers; [ToString] prints them in decimal notation, as JavaScript
    does below 10^21 ([JS.in_range]). *)

From Stdlib Require Import ZArith Ascii String List Bool Lia.
From Stdlib Require Import Numbers.DecimalString.
From stdpp Require Import base gmap strings list.

#[local] Set Warnings "-register-all".

Local Open Scope string_scope.
Local Open Scope Z_scope.

(** ** Strings *)

Module JSString.

Definition is_upper (c : ascii) : bool :=
  let n := N_of_ascii c in ((65 <=? n) && (n <=? 90))%N.

Definition lower_char (c : ascii) : ascii :=
  if is_upper c then ascii_of_N (N_of_ascii c + 32) else c.

(** The string holds ASCII characters only. *)
Definition is_ascii (s : string) : bool :=
  forallb (fun c => (N_of_ascii c <? 128)%N) (list_ascii_of_string s).

(** [String.prototype.toLowerCase] on a string of ASCII characters: the
    letters [A] to [Z] are folded, every other character is kept.  (Outside
    ASCII JavaScript folds further characters, some of them to ASCII
    letters; such strings are outside this model.) *)
Fixpoint toLowerCase (s : string) : string :=
  match s with
  | EmptyString => EmptyString
  | String c r => String (lower_char c) (toLowerCase r)
  end.

(** [s.startsWith(w)] *)
Fixpoint startsWith (s w : string) {struct w} : bool :=
  match w, s with
  | EmptyString, _ => true
  | String _ _, EmptyString => false
  | String b w', String a s' => if Ascii.eqb a b then startsWith s' w' else false
  end.

(** [String.prototype.includes]: [w] occurs somewhere in [s] *)
Fixpoint includes (s w : string) : bool :=
  startsWith s w ||
  match s with
  | EmptyString => false
  | String _ r => includes r w
  end.

(** [Array.prototype.join] on an array of strings *)
Fixpoint join (sep : string) (l : list string) : string :=
  match l with
  | [] => ""
  | [x] => x
  | x :: r => x +:+ sep +:+ join sep r
  end.

(** [String.prototype.split] for a non-empty separator.  The scan goes left
    to right; [acc] is the segment being collected and [skip] counts the
    characters of a matched separator that are still to be passed over. *)
Fixpoint split_aux (sep s acc : string) (skip : nat) : list string :=
  match s with
  | EmptyString => [acc]
  | String c r =>
      match skip with
      | S k => split_aux sep r acc k
      | O =>
          if startsWith s sep
          then acc :: split_aux sep r "" (Nat.pred (String.length sep))
          else split_aux sep r (acc +:+ String c "") 0
      end
  end.

Definition split (s sep : string) : list string := split_aux sep s "" 0.

End JSString.
Import JSString.

(** ** JavaScript values, exceptions *)

Inductive Value : Type :=
| VUndefined
| VNull
| VBool (b : bool)
| VNum (n : Z)
| VStr (s : string)
| VArr (l : list Value)
| VObj (fields : list (string * Value)).

(** A thrown [Error] object; [error.message] is [message]. *)
Inductive Exn : Type :=
| Error (message : string)
| TypeError (message : string).

Definition message (e : Exn) : string :=
  match e with Error m => m | TypeError m => m end.

(** Results of code that may throw. *)
Abbreviation Try A := (Exn + A)%type.

Definition try_bind {A B} (x : Try A) (f : A -> Try B) : Try B :=
  match x with inl e => inl e | inr a => f a end.

Module JS.

(** [!!v] *)
Definition truthy (v : Value) : bool :=
  match v with
  | VUndefined | VNull => false
  | VBool b => b
  | VNum n => negb (n =? 0)
  | VStr s => negb (String.eqb s "")
  | VArr _ | VObj _ => true
  end.

Definition typeName (v : Value) : string :=
  match v with VNull => "null" | _ => "undefined" end.

Fixpoint assoc (k : string) (l : list (string * Value)) : Value :=
  match l with
  | [] => VUndefined
  | (k', v) :: r => if String.eqb k k' then v else assoc k r
  end.

(** Property read [v.p] on the values a JSON body can hold.  Only data properties are modelled:
    [length] of strings and arrays, and the own fields of objects. *)
Definition get (v : Value) (p : string) : Try Value :=
  match v with
  | VUndefined | VNull =>
      inl (TypeError ("Cannot read properties of " +:+ typeName v +:+
                      " (reading '" +:+ p +:+ "')"))
  | VObj fields => inr (assoc p fields)
  | VStr s => inr (if String.eqb p "length" then VNum (Z.of_nat (String.length s)) else VUndefined)
  | VArr l => inr (if String.eqb p "length" then VNum (Z.of_nat (length l)) else VUndefined)
  | VBool _ | VNum _ => inr VUndefined
  end.

(** The destructuring [const { p } = source]: the property read, with the
    engine's own message when [source] is [undefined] or [null]. *)
Definition destructure (source : string) (v : Value) (p : string) : Try Value :=
  match get v p with
  | inr x => inr x
  | inl _ =>
      inl (TypeError ("Cannot destructure property '" +:+ p +:+ "' of '" +:+ source +:+
                      "' as it is " +:+ typeName v +:+ "."))
  end.

(** Indexing [v[i]] *)
Definition index (v : Value) (i : nat) : Try Value :=
  match v with
  | VUndefined | VNull =>
      inl (TypeError ("Cannot read properties of " +:+ typeName v +:+
                      " (reading '" +:+ NilEmpty.string_of_uint (Nat.to_uint i) +:+ "')"))
  | VArr l => inr (nth i l VUndefined)
  | VStr s => inr (match String.get i s with Some c => VStr (String c "") | None => VUndefined end)
  | VObj fields => inr (assoc (NilEmpty.string_of_uint (Nat.to_uint i)) fields)
  | VBool _ | VNum _ => inr VUndefined
  end.

(** [a || b] *)
Definition or (a b : Value) : Value := if truthy a then a else b.

(** The text of a value that can be converted to a string: the result of
    the abstract operation ToString where it does not throw ([throws]),
    with integers in decimal notation ([in_range]). *)
Fixpoint ToString (v : Value) : string :=
  match v with
  | VUndefined => "undefined"
  | VNull => "null"
  | VBool true => "true"
  | VBool false => "false"
  | VNum n => NilZero.string_of_int (Z.to_int n)
  | VStr s => s
  | VArr l =>
      join "," (map (fun x => match x with
                              | VUndefined | VNull => ""
                              | _ => ToString x
                              end) l)
  | VObj _ => "[object Object]"
  end.

(** ToString throws on [v].  An object parsed from JSON is converted by
    [Object.prototype.toString] unless it has an own property [toString]:
    that property holds data, cannot be called, and the conversion ends in
    a [TypeError].  [Array.prototype.join] converts every element other
    than [null] and [undefined]. *)
Fixpoint throws (v : Value) : bool :=
  match v with
  | VArr l => existsb throws l
  | VObj fields => existsb (fun kv => String.eqb (fst kv) "toString") fields
  | _ => false
  end.

(** The abstract operation ToString, as used by template literals and by
    [new Error(v)]. *)
Definition template (v : Value) : Try string :=
  if throws v then inl (TypeError "Cannot convert object to primitive value")
  else inr (ToString v).

(** The numbers in [v] that ToString reaches are below 10^21 in absolute
    value, where JavaScript prints an integer in decimal notation. *)
Fixpoint in_range (v : Value) : bool :=
  match v with
  | VNum n => Z.abs n <? 10 ^ 21
  | VArr l => forallb in_range l
  | _ => true
  end.

End JS.

(** ** Content moderation *)

Record ModerationDecision := { allowed : bool; reason : option string }.

Definition blacklist : list string :=
  [ "celebrity"; "celebrities"; "famous"; "star";
    "trademark"; "logo"; "brand";
    "disney"; "marvel"; "pokemon";
    "political"; "politician"; "president" ].

(** [prompt.toLowerCase()] as a method call on an arbitrary value. *)
Definition call_toLowerCase (prompt : Value) : Try string :=
  match prompt with
  | VStr s => inr (toLowerCase s)
  | VUndefined | VNull =>
      inl (TypeError ("Cannot read properties of " +:+ JS.typeName prompt +:+
                      " (reading 'toLowerCase')"))
  | _ => inl (TypeError "prompt.toLowerCase is not a function")
  end.

Definition moderateContent (prompt : Value) : Try ModerationDecision :=
  try_bind (call_toLowerCase prompt) (fun promptLower =>
  let matches := List.filter (fun word => includes promptLower word) blacklist in
  if (0 <? length matches)%nat
  then inr {| allowed := false;
              reason := Some ("Prompt contains restricted words: " +:+ join ", " matches) |}
  else inr {| allowed := true; reason := None |}).

(** ** Effects

    Everything the handlers ask of their environment is an event; the
    environment's answer is the argument of the continuation. *)

(** What [fetch] resolves to: [ok], [status] and the outcome of
    [response.json()] (which rejects on a body that is not JSON). *)
Record FetchResponse := { ok : bool; http_status : Z; json : Try Value }.

(** [Buffer.from(data, encoding)], kept symbolic. *)
Inductive Buffer : Type := Buffer_from (data : Value) (encoding : string).

Inductive Event : Type -> Type :=
| fetch (url : string) (init : Value) : Event (Try FetchResponse)
| openai_images_generate (params : Value) : Event (Try Value)
| crypto_randomUUID : Event string
| fs_writeFileSync (filepath : string) (data : Buffer) : Event (Try unit)
| console_error (label : string) (e : Exn) : Event unit
| console_log (args : list Value) : Event unit
| express_static (file : string) : Event (option Buffer)
| express_static_redirect (dir : string) : Event (option string).

Inductive Prog (A : Type) : Type :=
| Ret (a : A)
| Throw (e : Exn)
| Vis {X : Type} (ev : Event X) (k : X -> Prog A).
Arguments Ret {A} a.
Arguments Throw {A} e.
Arguments Vis {A X} ev k.

Fixpoint bind {A B} (p : Prog A) (f : A -> Prog B) : Prog B :=
  match p with
  | Ret a => f a
  | Throw e => Throw e
  | Vis ev k => Vis ev (fun x => bind (k x) f)
  end.

#[export] Instance prog_ret : MRet Prog := @Ret.
#[export] Instance prog_bind : MBind Prog := fun A B f p => bind p f.

(** [try { p } catch (error) { h error }] *)
Fixpoint try_catch {A} (p : Prog A) (h : Exn -> Prog A) : Prog A :=
  match p with
  | Ret a => Ret a
  | Throw e => h e
  | Vis ev k => Vis ev (fun x => try_catch (k x) h)
  end.

(** A pure computation that may throw. *)
Definition lift {A} (x : Try A) : Prog A :=
  match x with inl e => Throw e | inr a => Ret a end.

(** [await] of a call that may reject. *)
Definition await {A} (ev : Event (Try A)) : Prog A := Vis ev lift.

(** A call that cannot fail. *)
Definition trigger {A} (ev : Event A) : Prog A := Vis ev Ret.

(** *** Running a program against one environment *)

(** The answers of the environment during one request. *)
Record World := {
  w_fetch : Try FetchResponse;
  w_openai : Try Value;
  w_uuid : string;
  w_write : Try unit;
  w_static : option Buffer;
  w_redirect : option string
}.

Definition answer (w : World) {X} (ev : Event X) : X :=
  match ev in Event X return X with
  | fetch _ _ => w_fetch w
  | openai_images_generate _ => w_openai w
  | crypto_randomUUID => w_uuid w
  | fs_writeFileSync _ _ => w_write w
  | console_error _ _ => tt
  | console_log _ => tt
  | express_static _ => w_static w
  | express_static_redirect _ => w_redirect w
  end.

Inductive Call : Type := call (X : Type) (ev : Event X).
Arguments call {X} ev.

(** The outcome of [p] in world [w] and the calls it made, in order. *)
Fixpoint run {A} (w : World) (p : Prog A) : Try A * list Call :=
  match p with
  | Ret a => (inr a, [])
  | Throw e => (inl e, [])
  | Vis ev k => let '(r, t) := run w (k (answer w ev)) in (r, call ev :: t)
  end.

(** ** HTTP responses *)

Inductive Body : Type :=
| JSON (v : Value)
| File (b : Buffer)
| Moved (location : string)
| Page (html : string)
| NoBody.

Record Response := { status : Z; content : Body }.

(** [res.json(v)] and [res.status(c).json(v)] *)
Definition res_json (v : Value) : Response := {| status := 200; content := JSON v |}.
Definition res_status_json (c : Z) (v : Value) : Response := {| status := c; content := JSON v |}.

(** [process.env] and [__dirname] *)
Record Env := {
  OPENAI_API_KEY : option string;
  STABILITY_API_KEY : option string;
  APP_URL : option string;
  PORT_env : option string;
  DISABLE_RATE_LIMIT : option string;
  dirname : string
}.

Definition env_value (x : option string) : Value :=
  match x with Some s => VStr s | None => VUndefined end.

Definition opt_value (x : option string) : Value := env_value x.

(** [arr.map(f)] as a method call on an arbitrary value, for a callback that
    may throw. *)
Fixpoint mapM {A B} (f : A -> Try B) (l : list A) : Try (list B) :=
  match l with
  | [] => inr []
  | x :: r => try_bind (f x) (fun y => try_bind (mapM f r) (fun ys => inr (y :: ys)))
  end.

Definition call_map (name : string) (v : Value) (f : Value -> Try Value) : Try Value :=
  match v with
  | VArr l => try_bind (mapM f l) (fun l' => inr (VArr l'))
  | _ => inl (TypeError (name +:+ ".map is not a function"))
  end.

(** [v === 0] *)
Definition is_zero (v : Value) : bool :=
  match v with VNum n => n =? 0 | _ => false end.

(** ** Requests *)

Inductive Method : Type := GET | HEAD | POST | PUT | DELETE | OPTIONS.

(** An incoming request: [ip] is [req.ip], the identity the limiters count
    by; [path] is the path of the request URL, as sent; [body] is what
    [express.json()] parsed; [now] is the arrival time in milliseconds. *)
Record Request := {
  ip : string;
  remoteAddress : string;
  method : Method;
  path : string;
  body : Value;
  now : Z
}.

Definition is_GET (m : Method) : bool :=
  match m with GET | HEAD => true | _ => false end.

Definition is_POST (m : Method) : bool :=
  match m with POST => true | _ => false end.

(** How Express matches the path of a request against the path [route] of
    [app.get] or [app.post]: the router's options [caseSensitive] and
    [strict] are off, so the case of ASCII letters is ignored and one
    trailing slash is accepted. *)
Definition route_matches (p route : string) : bool :=
  let l := toLowerCase p in String.eqb l route || String.eqb l (route +:+ "/").

(** How Express matches the path of a request against the mount path of
    [app.use(mount, ...)]: as a prefix that ends at the end of the path or at
    a slash, without regard to the case of ASCII letters. *)
Definition mount_matches (p mount : string) : bool :=
  let l := toLowerCase p in String.eqb l mount || startsWith l (mount +:+ "/").

(** What [express.json()] makes of an incoming request.  A body that it
    parsed (or left alone) goes on to the rest of the stack as [req.body].  A
    body that it cannot parse or that exceeds the limit is an error, which
    Express answers itself with the status of the error (400, 413, ...) and
    an error page; no later middleware runs. *)
Inductive Incoming : Type :=
| Parsed (req : Request)
| Unparsed (error_status : Z) (page : string).

(** ** Rate limiting middleware *)

(** Modelled from the spec: the [rateLimit] middleware is the package
    express-rate-limit, which [app.js] configures and installs but which is
    not part of the repository.  Per identity the store keeps a count and the
    time at which the current window ends.  A request arriving after that
    time starts a new window anchored at its own arrival time; otherwise the
    count is incremented.  The request goes on to the next middleware while
    the count stays within [max], and is answered with status 429 and the
    configured [message] once the count exceeds it. *)
Module RateLimit.

Record RateCounterState := { count : Z; resetTime : Z }.

Record Options := { windowMs : Z; max : Z; message : Value }.

Definition increment (o : Options) (store : gmap string RateCounterState)
    (key : string) (now : Z) : RateCounterState * gmap string RateCounterState :=
  let fresh := {| count := 1; resetTime := now + windowMs o |} in
  let c := match store !! key with
           | Some c =>
               if resetTime c <? now then fresh
               else {| count := count c + 1; resetTime := resetTime c |}
           | None => fresh
           end in
  (c, <[key := c]> store).

Inductive Decision : Type :=
| Next
| Reject (r : Response).

Definition rateLimit (o : Options) (store : gmap string RateCounterState)
    (key : string) (now : Z) : Decision * gmap string RateCounterState :=
  let '(c, store') := increment o store key now in
  if max o <? count c
  then (Reject {| status := 429; content := JSON (message o) |}, store')
  else (Next, store').

Definition admits (d : Decision) : bool :=
  match d with Next => true | Reject _ => false end.

(** *** Serving a sequence of requests

    A hit is a pair of an identity and an arrival time. *)

(** The store after the limiter has seen [hits], oldest first. *)
Fixpoint after (o : Options) (store : gmap string RateCounterState)
    (hits : list (string * Z)) : gmap string RateCounterState :=
  match hits with
  | [] => store
  | (key, now) :: rest => after o (snd (rateLimit o store key now)) rest
  end.


(** How many of [hits] come from [key]. *)
Definition seen (key : string) (hits : list (string * Z)) : Z :=
  Z.of_nat (length (List.filter (fun h => String.eqb (fst h) key) hits)).


End RateLimit.

(** ** Handlers shared by the two variants *)

Definition content_not_allowed (moderation : ModerationDecision) : Response :=
  res_status_json 400
    (VObj [("error", VStr "Content not allowed");
           ("message", opt_value (reason moderation))]).

(** The [catch (error)] block of a route: log, then answer 500. *)
Definition on_error (label err : string) (error : Exn) : Prog Response :=
  _ ← trigger (console_error label error);
  mret (res_status_json 500
          (VObj [("error", VStr err); ("message", VStr (message error))])).

Definition health : Response := res_json (VObj [("status", VStr "healthy")]).

(** ** The OpenAI variant *)

Module OpenAIVariant.

Definition generate_params (prompt : Value) : Value :=
  VObj [("model", VStr "dall-e-3"); ("prompt", prompt); ("n", VNum 1);
        ("size", VStr "1024x1024"); ("quality", VStr "standard");
        ("response_format", VStr "url")].

(** [app.post('/generate', ...)] *)
Definition generate (req_body : Value) : Prog Response :=
  try_catch
    (prompt ← lift (JS.destructure "req.body" req_body "prompt");
     moderation ← lift (moderateContent prompt);
     if negb (allowed moderation) then mret (content_not_allowed moderation)
     else
       response ← await (openai_images_generate (generate_params prompt));
       data ← lift (JS.get response "data");
       first ← lift (JS.index data 0);
       url ← lift (JS.get first "url");
       mret (res_json (VObj [("success", VBool true); ("imageUrl", url)])))
    (on_error "Error generating image:" "Failed to generate image").

(** [rateLimit({ windowMs, max })]; the message is the package's default. *)
Definition limiter : RateLimit.Options :=
  {| RateLimit.windowMs := 24 * 60 * 60 * 1000;
     RateLimit.max := 25;
     RateLimit.message := VStr "Too many requests, please try again later." |}.

Definition route (req : Request) : Prog Response :=
  if is_POST (method req) && route_matches (path req) "/generate" then generate (body req)
  else if is_GET (method req) && route_matches (path req) "/health" then mret health
  else mret {| status := 404; content := NoBody |}.

(** The middleware stack behind [express.json()]: [cors()] (which answers
    every OPTIONS request itself), the limiter, then the routes. *)
Definition app (store : gmap string RateLimit.RateCounterState) (req : Request)
    : Prog (Response * gmap string RateLimit.RateCounterState) :=
  match method req with
  | OPTIONS => mret ({| status := 204; content := NoBody |}, store)
  | _ =>
      match RateLimit.rateLimit limiter store (ip req) (now req) with
      | (RateLimit.Reject r, store') => mret (r, store')
      | (RateLimit.Next, store') => r ← route req; mret (r, store')
      end
  end.

(** The whole stack, [express.json()] first. *)
Definition serve (store : gmap string RateLimit.RateCounterState) (i : Incoming)
    : Prog (Response * gmap string RateLimit.RateCounterState) :=
  match i with
  | Unparsed code page => mret ({| status := code; content := Page page |}, store)
  | Parsed req => app store req
  end.

End OpenAIVariant.

(** ** The Stability variant *)

Module StabilityVariant.

Definition api_url : string :=
  "https://api.stability.ai/v1/generation/stable-diffusion-xl-1024-v1-0/text-to-image".

(** The second argument of [fetch]; [body] is the value handed to
    [JSON.stringify]. *)
Definition fetch_init (env : Env) (text : Value) (samples : Z) : Value :=
  VObj [("method", VStr "POST");
        ("headers",
          VObj [("Content-Type", VStr "application/json");
                ("Authorization",
                  VStr ("Bearer " +:+ JS.ToString (env_value (STABILITY_API_KEY env))));
                ("Accept", VStr "application/json")]);
        ("body",
          VObj [("text_prompts", VArr [VObj [("text", text)]]);
                ("cfg_scale", VNum 7); ("height", VNum 1024); ("width", VNum 1024);
                ("steps", VNum 30); ("samples", VNum samples)])].

(** [if (!response.ok) { const error = await response.json();
      throw new Error(error.message || fallback) }] *)
Definition throw_api_error {A} (response : FetchResponse) (fallback : string) : Prog A :=
  error ← lift (json response);
  m ← lift (JS.get error "message");
  text ← lift (JS.template (JS.or m (VStr fallback)));
  Throw (Error text).

(** [artifact => ({ imageUrl: `data:image/png;base64,${artifact.base64}` })] *)
Definition image_entry (artifact : Value) : Try Value :=
  try_bind (JS.get artifact "base64") (fun base64 =>
  try_bind (JS.template base64) (fun text =>
  inr (VObj [("imageUrl", VStr ("data:image/png;base64," +:+ text))]))).

(** [app.post('/generate', ...)] *)
Definition generate (env : Env) (req_body : Value) : Prog Response :=
  try_catch
    (prompt ← lift (JS.destructure "req.body" req_body "prompt");
     moderation ← lift (moderateContent prompt);
     if negb (allowed moderation) then mret (content_not_allowed moderation)
     else
       response ← await (fetch api_url (fetch_init env prompt 1));
       if negb (ok response) then throw_api_error response "Failed to generate image"
       else
         result ← lift (json response);
         artifacts ← lift (JS.get result "artifacts");
         none ← (if negb (JS.truthy artifacts) then mret true
                 else len ← lift (JS.get artifacts "length"); mret (is_zero len));
         if (none : bool) then Throw (Error "No image generated")
         else
           images ← lift (call_map "result.artifacts" artifacts image_entry);
           mret (res_json (VObj [("success", VBool true); ("images", images)])))
    (on_error "Error generating image:" "Failed to generate image").

(** [app.get('/test-stability', ...)] *)
Definition test_stability (env : Env) : Prog Response :=
  try_catch
    (response ← await (fetch api_url (fetch_init env (VStr "A simple blue circle") 4));
     if negb (ok response) then throw_api_error response "API request failed"
     else
       result ← lift (json response);
       artifacts ← lift (JS.get result "artifacts");
       count ← (if JS.truthy artifacts then lift (JS.get artifacts "length")
                else mret (VNum 0));
       _ ← trigger (console_log
                      [VStr "API Response:";
                       VObj [("status", VNum (http_status response));
                             ("hasImages", VBool (JS.truthy artifacts));
                             ("numberOfImages", count)]]);
       mret (res_json (VObj [("success", VBool true);
                             ("message", VStr "API connection successful");
                             ("imageGenerated", VBool (JS.truthy artifacts))])))
    (on_error "Stability AI Test Error:" "API test failed").

(** [imageData.includes('base64,')] and [imageData.split('base64,')] as
    method calls on an arbitrary truthy value. *)
Definition call_includes (v : Value) (w : string) : Try bool :=
  match v with
  | VStr s => inr (includes s w)
  | VArr l => inr (existsb (fun x => match x with
                                     | VStr s => String.eqb s w
                                     | _ => false
                                     end) l)
  | VUndefined | VNull =>
      inl (TypeError ("Cannot read properties of " +:+ JS.typeName v +:+
                      " (reading 'includes')"))
  | _ => inl (TypeError "imageData.includes is not a function")
  end.

Definition call_split (v : Value) (sep : string) : Try Value :=
  match v with
  | VStr s => inr (VArr (map VStr (split s sep)))
  | VUndefined | VNull =>
      inl (TypeError ("Cannot read properties of " +:+ JS.typeName v +:+
                      " (reading 'split')"))
  | _ => inl (TypeError "imageData.split is not a function")
  end.

(** [Buffer.from(v, 'base64')]: strings and arrays are accepted. *)
Definition call_Buffer_from (v : Value) (encoding : string) : Try Buffer :=
  match v with
  | VStr _ | VArr _ => inr (Buffer_from v encoding)
  | _ => inl (TypeError "The first argument must be of type string or an instance of Buffer, ArrayBuffer, or Array or an Array-like Object.")
  end.

(** [path.join(dir, name)] on normalised POSIX paths *)
Definition path_join (dir name : string) : string := dir +:+ "/" +:+ name.

Definition uploadsDir (env : Env) : string := path_join (dirname env) "uploads".

(** [const PORT = process.env.PORT || 3000] *)
Definition PORT (env : Env) : Value := JS.or (env_value (PORT_env env)) (VNum 3000).

(** [process.env.APP_URL || `http://localhost:${PORT}`] *)
Definition host (env : Env) : string :=
  JS.ToString (JS.or (env_value (APP_URL env))
                     (VStr ("http://localhost:" +:+ JS.ToString (PORT env)))).

(** The text handed to the decoder: [imageData], or the second piece of
    [imageData.split('base64,')] when the marker occurs. *)
Definition extract_base64 (imageData : Value) : Try Value :=
  try_bind (call_includes imageData "base64,") (fun marked =>
  if (marked : bool)
  then try_bind (call_split imageData "base64,") (fun pieces => JS.index pieces 1)
  else inr imageData).

(** [app.post('/save-image', ...)] *)
Definition save_image (env : Env) (req_body : Value) : Prog Response :=
  try_catch
    (imageData ← lift (JS.destructure "req.body" req_body "imageData");
     if negb (JS.truthy imageData)
     then mret (res_status_json 400 (VObj [("error", VStr "No image data provided")]))
     else
       base64Data ← lift (extract_base64 imageData);
       uuid ← trigger crypto_randomUUID;
       let filename := uuid +:+ ".png" in
       let filepath := path_join (uploadsDir env) filename in
       buffer ← lift (call_Buffer_from base64Data "base64");
       _ ← await (fs_writeFileSync filepath buffer);
       let imageUrl := host env +:+ "/uploads/" +:+ filename in
       mret (res_json (VObj [("success", VBool true); ("imageUrl", VStr imageUrl)])))
    (on_error "Error saving image:" "Failed to save image").

(** *** Rate limiting configuration *)

Record RateLimits := { daily : Z; hourly : Z; burst : Z }.

Definition RATE_LIMITS : RateLimits :=
  {| daily := 500; hourly := 50; burst := 20 |}.

Definition dailyLimiter : RateLimit.Options :=
  {| RateLimit.windowMs := 24 * 60 * 60 * 1000;
     RateLimit.max := daily RATE_LIMITS;
     RateLimit.message :=
       VObj [("error", VStr "Daily limit exceeded");
             ("message", VStr "You have reached your daily generation limit. Please try again tomorrow.")] |}.

Definition burstLimiter : RateLimit.Options :=
  {| RateLimit.windowMs := 60 * 1000;
     RateLimit.max := burst RATE_LIMITS;
     RateLimit.message :=
       VObj [("error", VStr "Too many requests");
             ("message", VStr "You are generating too quickly. Please wait a moment and try again.")] |}.

Definition hourlyLimiter : RateLimit.Options :=
  {| RateLimit.windowMs := 60 * 60 * 1000;
     RateLimit.max := hourly RATE_LIMITS;
     RateLimit.message :=
       VObj [("error", VStr "Hourly limit exceeded");
             ("message", VStr "You have reached your hourly generation limit. Please wait a bit.")] |}.

(** The counters of the three limiters. *)
Record Stores := {
  dailyStore : gmap string RateLimit.RateCounterState;
  hourlyStore : gmap string RateLimit.RateCounterState;
  burstStore : gmap string RateLimit.RateCounterState
}.

Definition no_counters : Stores :=
  {| dailyStore := ∅; hourlyStore := ∅; burstStore := ∅ |}.

(** [process.env.DISABLE_RATE_LIMIT !== 'true'] *)
Definition rate_limit_enabled (env : Env) : bool :=
  match DISABLE_RATE_LIMIT env with
  | Some v => negb (String.eqb v "true")
  | None => true
  end.

(** [app.use(dailyLimiter); app.use(hourlyLimiter); app.use(burstLimiter)]:
    each middleware runs only when the one before it called [next]. *)
Definition limiters (st : Stores) (key : string) (now : Z) : RateLimit.Decision * Stores :=
  match RateLimit.rateLimit dailyLimiter (dailyStore st) key now with
  | (RateLimit.Reject r, d) =>
      (RateLimit.Reject r, {| dailyStore := d; hourlyStore := hourlyStore st; burstStore := burstStore st |})
  | (RateLimit.Next, d) =>
      match RateLimit.rateLimit hourlyLimiter (hourlyStore st) key now with
      | (RateLimit.Reject r, h) =>
          (RateLimit.Reject r, {| dailyStore := d; hourlyStore := h; burstStore := burstStore st |})
      | (RateLimit.Next, h) =>
          match RateLimit.rateLimit burstLimiter (burstStore st) key now with
          | (RateLimit.Reject r, b) =>
              (RateLimit.Reject r, {| dailyStore := d; hourlyStore := h; burstStore := b |})
          | (RateLimit.Next, b) =>
              (RateLimit.Next, {| dailyStore := d; hourlyStore := h; burstStore := b |})
          end
      end
  end.

(** The counters after the three limiters have seen [hits]. *)
Fixpoint after (st : Stores) (hits : list (string * Z)) : Stores :=
  match hits with
  | [] => st
  | (key, now) :: rest => after (snd (limiters st key now)) rest
  end.








Definition governor (env : Env) (st : Stores) (key : string) (now : Z)
    : RateLimit.Decision * Stores :=
  if rate_limit_enabled env then limiters st key now else (RateLimit.Next, st).

(** *** Status route *)

(** [res.getHeader('X-RateLimit-...')]: with [legacyHeaders: false] no
    middleware sets a header of that name, so the read is [undefined]. *)
Definition res_getHeader (name : string) : Value := VUndefined.

(** [dailyLimiter.windowMs] and the like: the middleware that [rateLimit]
    returns is a function without such a property. *)
Definition middleware_windowMs : Value := VUndefined.

Definition clientIP (req : Request) : Value :=
  JS.or (VStr (ip req)) (VStr (remoteAddress req)).

(** [app.get('/rate-limit-status', ...)].  [reset] is the header
    [X-RateLimit-Reset], which is [undefined]: both conditionals on it take
    their ['unknown'] branch. *)
Definition rate_limit_status (req : Request) : Prog Response :=
  let dailyRemaining := res_getHeader "X-RateLimit-Remaining" in
  let num n := JS.ToString (VNum n) in
  _ ← trigger (console_log
         [VStr ("🔍 Rate Limit Status Check for " +:+ JS.ToString (clientIP req) +:+ ":")]);
  _ ← trigger (console_log
         [VStr ("   - Daily limit: " +:+ num (daily RATE_LIMITS) +:+ " requests")]);
  _ ← trigger (console_log
         [VStr ("   - Hourly limit: " +:+ num (hourly RATE_LIMITS) +:+ " requests")]);
  _ ← trigger (console_log
         [VStr ("   - Burst limit: " +:+ num (burst RATE_LIMITS) +:+ " requests")]);
  _ ← trigger (console_log
         [VStr ("   - Current remaining: " +:+
                JS.ToString (JS.or dailyRemaining (VStr "unknown")))]);
  _ ← trigger (console_log [VStr "   - Reset time: unknown"]);
  mret (res_json
    (VObj [("ip", clientIP req);
           ("limits",
             VObj [("daily",
                     VObj [("max", VNum (daily RATE_LIMITS));
                           ("remaining", JS.or dailyRemaining (VStr "unknown"));
                           ("windowMs", middleware_windowMs)]);
                   ("hourly",
                     VObj [("max", VNum (hourly RATE_LIMITS));
                           ("windowMs", middleware_windowMs)]);
                   ("burst",
                     VObj [("max", VNum (burst RATE_LIMITS));
                           ("windowMs", middleware_windowMs)])]);
           ("resetTime", VStr "unknown")])).

(** *** The application *)

Definition route (env : Env) (req : Request) : Prog Response :=
  if is_GET (method req) && route_matches (path req) "/test-stability" then test_stability env
  else if is_POST (method req) && route_matches (path req) "/generate" then generate env (body req)
  else if is_POST (method req) && route_matches (path req) "/save-image" then save_image env (body req)
  else if is_GET (method req) && route_matches (path req) "/health" then mret health
  else if is_GET (method req) && route_matches (path req) "/rate-limit-status" then rate_limit_status req
  else mret {| status := 404; content := NoBody |}.

(** [app.use('/uploads', express.static(...))] takes the request: it is a
    GET or HEAD whose path is the mount path or lies below it.  (For other
    methods the static middleware goes on to the next one at once.) *)
Definition static_mount (req : Request) : bool :=
  is_GET (method req) && mount_matches (path req) "/uploads".

(** The middleware stack behind [express.json()], in the order of the
    [app.use] calls: [cors()] (which answers every OPTIONS request itself),
    the static files, the limiters, the logging middleware (which only reads
    the [X-RateLimit-*] headers and goes on), the routes.  The static
    middleware answers with the file when the path names one, redirects
    (301) to the path with a slash appended when it names a directory, as the
    bare mount path does, and goes on to the next middleware otherwise. *)
Definition app (env : Env) (st : Stores) (req : Request) : Prog (Response * Stores) :=
  match method req with
  | OPTIONS => mret ({| status := 204; content := NoBody |}, st)
  | _ =>
      served ← (if static_mount req then trigger (express_static (path req))
                else mret None);
      match served with
      | Some file => mret ({| status := 200; content := File file |}, st)
      | None =>
          moved ← (if static_mount req then trigger (express_static_redirect (path req))
                   else mret None);
          match moved with
          | Some location => mret ({| status := 301; content := Moved location |}, st)
          | None =>
              match governor env st (ip req) (now req) with
              | (RateLimit.Reject r, st') => mret (r, st')
              | (RateLimit.Next, st') => r ← route env req; mret (r, st')
              end
          end
      end
  end.

(** The whole stack, [express.json()] first. *)
Definition serve (env : Env) (st : Stores) (i : Incoming) : Prog (Response * Stores) :=
  match i with
  | Unparsed code page => mret ({| status := code; content := Page page |}, st)
  | Parsed req => app env st req
  end.

End StabilityVariant.

(** ** Notions used to state the properties *)

Module ModerationSpec.

(** Two characters that are the same letter up to case. *)
Definition same_letter (a b : ascii) : Prop :=
  a = b \/
  (is_upper a = true /\ N_of_ascii b = (N_of_ascii a + 32)%N) \/
  (is_upper b = true /\ N_of_ascii a = (N_of_ascii b + 32)%N).

(** Equality of strings up to the case of their letters. *)
Inductive ci_eq : string -> string -> Prop :=
| ci_nil : ci_eq "" ""
| ci_cons a b s t : same_letter a b -> ci_eq s t -> ci_eq (String a s) (String b t).

(** [term] occurs in [prompt] as a case-insensitive substring. *)
Definition contains_ci (prompt term : string) : Prop :=
  exists pre mid post, prompt = pre +:+ mid +:+ post /\ ci_eq mid term.

Definition no_upper (s : string) : bool :=
  forallb (fun c => negb (is_upper c)) (list_ascii_of_string s).

End ModerationSpec.

Module StoreSpec.

(** The marker ["base64,"] of a data URI. *)
Definition marker : string := "base64,".

(** [pre +:+ sep +:+ rest] holds the separator at that one place only. *)
Definition sole_occurrence (sep pre rest : string) : Prop :=
  forall pre' rest', pre +:+ sep +:+ rest = pre' +:+ sep +:+ rest' -> pre' = pre.

(** The number of places at which [sep] occurs in [s]. *)
Fixpoint occurrences (sep s : string) : nat :=
  (if startsWith s sep then 1 else 0) +
  match s with
  | EmptyString => 0
  | String _ r => occurrences sep r
  end.

End StoreSpec.

Module GatewaySpec.




Definition upstream_error (msg : string) : Response :=
  res_status_json 500
    (VObj [("error", VStr "Failed to generate image"); ("message", VStr msg)]).

Definition set_DISABLE_RATE_LIMIT (env : Env) (v : option string) : Env :=
  {| OPENAI_API_KEY := OPENAI_API_KEY env;
     STABILITY_API_KEY := STABILITY_API_KEY env;
     APP_URL := APP_URL env;
     PORT_env := PORT_env env;
     DISABLE_RATE_LIMIT := v;
     dirname := dirname env |}.

(** What the caller and the environment see of a served request: the answer
    and the calls made, without the counters. *)
Definition answer_of {S : Type} (x : Try (Response * S) * list Call)
    : Try Response * list Call :=
  (match fst x with inl e => inl e | inr (r, _) => inr r end, snd x).



Definition too_many (o : RateLimit.Options) : Response :=
  {| status := 429; content := JSON (RateLimit.message o) |}.

(** [key] has no counter in any of the three stores. *)
Definition fresh (st : StabilityVariant.Stores) (key : string) : Prop :=
  StabilityVariant.dailyStore st !! key = None /\
  StabilityVariant.hourlyStore st !! key = None /\
  StabilityVariant.burstStore st !! key = None.

(** The counters of [key] after [n] requests that all arrived within one
    minute of the first, which came at [t0]: the daily limiter has counted
    all of them, each later limiter those that the ones before it let
    through. *)
Definition counted (st : StabilityVariant.Stores) (key : string) (t0 n : Z) : Prop :=
  StabilityVariant.dailyStore st !! key =
    Some {| RateLimit.count := n;
            RateLimit.resetTime := t0 + 86400000 |} /\
  StabilityVariant.hourlyStore st !! key =
    Some {| RateLimit.count := Z.min n 500;
            RateLimit.resetTime := t0 + 3600000 |} /\
  StabilityVariant.burstStore st !! key =
    Some {| RateLimit.count := Z.min n 50;
            RateLimit.resetTime := t0 + 60000 |}.


(** The static middleware passes [req] on: the path names neither a file
    nor a directory. *)
Definition passes_static (w : World) (req : Request) : Prop :=
  StabilityVariant.static_mount req = true -> w_static w = None /\ w_redirect w = None.

(** The calls of the static middleware for a request that it passes on. *)
Definition static_calls (req : Request) : list Call :=
  if StabilityVariant.static_mount req
  then [call (express_static (path req)); call (express_static_redirect (path req))]
  else [].

(** The answer of the three limiters to the [n]-th request of a minute. *)
Definition verdict (n : Z) : RateLimit.Decision :=
  if 500 <? n then RateLimit.Reject (too_many StabilityVariant.dailyLimiter)
  else if 50 <? n then RateLimit.Reject (too_many StabilityVariant.hourlyLimiter)
  else if 20 <? n then RateLimit.Reject (too_many StabilityVariant.burstLimiter)
  else RateLimit.Next.

End GatewaySpec.

(** ** Notions used to state further properties *)

Module Observed.

Definition is_string (v : Value) : bool :=
  match v with VStr _ => true | _ => false end.

(** The calls that reach an image provider. *)
Definition is_upstream_call (c : Call) : bool :=
  match c with
  | call (fetch _ _) | call (openai_images_generate _) => true
  | _ => false
  end.

(** The files a run wrote, with their contents. *)
Definition written (c : Call) : list (string * Buffer) :=
  match c with
  | call (fs_writeFileSync filepath data) => [(filepath, data)]
  | _ => []
  end.

Definition writes (calls : list Call) : list (string * Buffer) :=
  concat (map written calls).

(** The errors a run logged with [console.error], with their labels. *)
Definition logged_error (c : Call) : list (string * Exn) :=
  match c with
  | call (console_error label e) => [(label, e)]
  | _ => []
  end.

Definition logged (calls : list Call) : list (string * Exn) :=
  concat (map logged_error calls).

(** The answer of a [catch] block. *)
Definition server_error (err msg : string) : Response :=
  res_status_json 500 (VObj [("error", VStr err); ("message", VStr msg)]).

(** A payload that a template literal turns into text as [JS.ToString]
    says: the conversion does not throw and prints no number in exponent
    form. *)
Definition printable (v : Value) : bool := negb (JS.throws v) && JS.in_range v.

(** The prompt of a request body when it is there and the Moderation Filter
    allows it. *)
Definition moderated_prompt (req_body : Value) : option Value :=
  match JS.get req_body "prompt" with
  | inr prompt =>
      match moderateContent prompt with
      | inr d => if allowed d then Some prompt else None
      | inl _ => None
      end
  | inl _ => None
  end.

(** No occurrence of [sep] in [pre +:+ sep +:+ post] starts inside [pre]. *)
Definition earliest (sep pre post : string) : Prop :=
  forall p1 p2, pre = p1 +:+ p2 -> p2 <> "" ->
                startsWith (p2 +:+ sep +:+ post) sep = false.

(** [data] is what lies between the first ["base64,"] of [payload] and the
    next one, or the end. *)
Definition between_markers (payload data : string) : Prop :=
  (exists pre,
     payload = pre +:+ "base64," +:+ data /\
     earliest "base64," pre data /\ includes data "base64," = false) \/
  (exists pre rest,
     payload = pre +:+ "base64," +:+ data +:+ "base64," +:+ rest /\
     earliest "base64," pre (data +:+ "base64," +:+ rest) /\
     earliest "base64," data rest).

End Observed.

(** ** Sample inputs *)

Module Samples.

Definition env : Env :=
  {| OPENAI_API_KEY := Some "sk-test";
     STABILITY_API_KEY := Some "sk-test";
     APP_URL := Some "https://pins.example.com";
     PORT_env := None;
     DISABLE_RATE_LIMIT := None;
     dirname := "/srv/app" |}.

(** The upstream answers with one image; the disk accepts the write. *)
Definition world : World :=
  {| w_fetch :=
       inr {| ok := true; http_status := 200;
              json := inr (VObj [("artifacts", VArr [VObj [("base64", VStr "QUJD")]])]) |};
     w_openai := inr (VObj [("data", VArr [VObj [("url", VStr "https://img.example.com/1.png")]])]);
     w_uuid := "0b0e7a5c-1111-4222-8333-444455556666";
     w_write := inr tt;
     w_static := None;
     w_redirect := None |}.

(** The upstream answers 200 with an empty list of artifacts. *)
Definition world_no_image : World :=
  {| w_fetch := inr {| ok := true; http_status := 200;
                       json := inr (VObj [("artifacts", VArr [])]) |};
     w_openai := inr (VObj [("data", VArr [])]);
     w_uuid := w_uuid world;
     w_write := inr tt;
     w_static := None;
     w_redirect := None |}.


(** The counters of one identity that has used up every window. *)
Definition exhausted : StabilityVariant.Stores :=
  {| StabilityVariant.dailyStore :=
       {[ "203.0.113.7" := {| RateLimit.count := 500; RateLimit.resetTime := 86400000 |} ]};
     StabilityVariant.hourlyStore :=
       {[ "203.0.113.7" := {| RateLimit.count := 50; RateLimit.resetTime := 3600000 |} ]};
     StabilityVariant.burstStore :=
       {[ "203.0.113.7" := {| RateLimit.count := 20; RateLimit.resetTime := 60000 |} ]} |}.

Definition body_of (field : string) (v : Value) : Value := VObj [(field, v)].

Definition request (m : Method) (p : string) (b : Value) (t : Z) : Request :=
  {| ip := "203.0.113.7"; remoteAddress := "203.0.113.7";
     method := m; path := p; body := b; now := t |}.

End Samples.

(** ** More sample inputs *)

Module MoreSamples.

(** A world in which the requested file is on disk. *)
Definition world_with_file : World :=
  {| w_fetch := inl (Error "fetch failed");
     w_openai := inl (Error "Connection error.");
     w_uuid := "0b0e7a5c-1111-4222-8333-444455556666";
     w_write := inr tt;
     w_static := Some (Buffer_from (VStr "QUJD") "base64");
     w_redirect := None |}.

(** A world in which the requested path names a directory. *)
Definition world_with_directory : World :=
  {| w_fetch := inl (Error "fetch failed");
     w_openai := inl (Error "Connection error.");
     w_uuid := "0b0e7a5c-1111-4222-8333-444455556666";
     w_write := inr tt;
     w_static := None;
     w_redirect := Some "/uploads/" |}.

(** The provider answers 200 with a JSON object without artifacts. *)
Definition world_empty_result : World :=
  {| w_fetch := inr {| ok := true; http_status := 200; json := inr (VObj []) |};
     w_openai := inr (VObj []);
     w_uuid := "0b0e7a5c-1111-4222-8333-444455556666";
     w_write := inr tt;
     w_static := None;
     w_redirect := None |}.

End MoreSamples.

(** * Properties *)

Example moderate_starfish :
  moderateContent (VStr "A Starfish wearing a Disney hat") =
  inr {| allowed := false;
         reason := Some "Prompt contains restricted words: star, disney" |}.
Proof. vm_compute. reflexivity. Qed.

Example split_marker :
  split "data:image/png;base64,AAAAbase64,BBBB" "base64," =
  ["data:image/png;"; "AAAA"; "BBBB"].
Proof. vm_compute. reflexivity. Qed.

(** ** Facts about strings *)

#[local] Arguments String.append !s1 s2 : simpl nomatch.

Section StringFacts.

Lemma str_app_nil_r (s : string) : s +:+ "" = s.
Proof. induction s as [|c s IH]; simpl; [reflexivity | now rewrite IH]. Qed.

Lemma str_app_assoc (a b c : string) : (a +:+ b) +:+ c = a +:+ (b +:+ c).
Proof. induction a as [|x a IH]; simpl; [reflexivity | now rewrite IH]. Qed.

Lemma str_app_length (a b : string) :
  String.length (a +:+ b) = (String.length a + String.length b)%nat.
Proof. induction a as [|x a IH]; simpl; [reflexivity | now rewrite IH]. Qed.

Lemma startsWith_spec (s w : string) :
  startsWith s w = true <-> exists post, s = w +:+ post.
Proof.
  revert s. induction w as [|b w IH]; intros s; simpl.
  - split; [intros _; now exists s | reflexivity].
  - destruct s as [|a s].
    + split; [discriminate | intros [post H]; discriminate].
    + destruct (Ascii.eqb_spec a b) as [->|Hne].
      * rewrite IH. split; intros [post H]; exists post.
        -- now rewrite H.
        -- now injection H.
      * split; [discriminate | intros [post H]; injection H; intros; congruence].
Qed.

Lemma includes_spec (s w : string) :
  includes s w = true <-> exists pre post, s = pre +:+ w +:+ post.
Proof.
  induction s as [|a s IH].
  - simpl. rewrite orb_false_r. rewrite startsWith_spec. split.
    + intros [post H]. now exists "", post.
    + intros [pre [post H]]. destruct pre; [now exists post | discriminate].
  - cbn [includes]. rewrite orb_true_iff, startsWith_spec, IH. split.
    + intros [[post H] | [pre [post H]]].
      * now exists "", post.
      * exists (String a pre), post. simpl. now rewrite H.
    + intros [pre [post H]]. destruct pre as [|x pre]; simpl in H.
      * left. now exists post.
      * right. injection H as _ H. now exists pre, post.
Qed.

Lemma toLowerCase_app (a b : string) :
  toLowerCase (a +:+ b) = toLowerCase a +:+ toLowerCase b.
Proof. induction a as [|x a IH]; simpl; [reflexivity | now rewrite IH]. Qed.

Lemma toLowerCase_app_inv (p x y : string) :
  toLowerCase p = x +:+ y ->
  exists a b, p = a +:+ b /\ toLowerCase a = x /\ toLowerCase b = y.
Proof.
  revert p. induction x as [|c x IH]; intros p H; simpl in H.
  - now exists "", p.
  - destruct p as [|d p]; simpl in H; [discriminate|].
    injection H as Hc H. destruct (IH p H) as (a & b & -> & Ha & Hb).
    exists (String d a), b. simpl. now rewrite Hc, Ha, Hb.
Qed.

Lemma upper_bound (a : ascii) :
  is_upper a = true -> (65 <= N_of_ascii a <= 90)%N.
Proof. unfold is_upper. cbv zeta. rewrite andb_true_iff, !N.leb_le. tauto. Qed.

Lemma lower_char_upper (a : ascii) :
  is_upper a = true -> N_of_ascii (lower_char a) = (N_of_ascii a + 32)%N.
Proof.
  intros H. unfold lower_char. rewrite H. apply N_ascii_embedding.
  apply upper_bound in H. lia.
Qed.

Lemma N_of_ascii_inj (a b : ascii) : N_of_ascii a = N_of_ascii b -> a = b.
Proof.
  intros H. rewrite <- (ascii_N_embedding a), <- (ascii_N_embedding b). now rewrite H.
Qed.

Lemma lower_char_same_letter (a b : ascii) :
  is_upper b = false -> (lower_char a = b <-> ModerationSpec.same_letter a b).
Proof.
  intros Hb. unfold ModerationSpec.same_letter. split.
  - intros <-. destruct (is_upper a) eqn:Ha.
    + right; left. split; [reflexivity | now apply lower_char_upper].
    + left. unfold lower_char. now rewrite Ha.
  - intros [-> | [[Ha Hn] | [Hb' _]]].
    + unfold lower_char. now rewrite Hb.
    + apply N_of_ascii_inj. now rewrite lower_char_upper.
    + congruence.
Qed.

Lemma toLowerCase_ci_eq (mid term : string) :
  ModerationSpec.no_upper term = true ->
  (toLowerCase mid = term <-> ModerationSpec.ci_eq mid term).
Proof.
  revert mid. induction term as [|b term IH]; intros mid Hno.
  - split.
    + destruct mid; [constructor | discriminate].
    + intros H. now inversion H.
  - unfold ModerationSpec.no_upper in Hno. simpl in Hno.
    apply andb_true_iff in Hno as [Hb Hno]. apply negb_true_iff in Hb.
    split.
    + destruct mid as [|a mid]; simpl; [discriminate|]. intros H.
      injection H as Ha H. constructor.
      * now apply lower_char_same_letter.
      * now apply IH.
    + intros H. inversion H as [|a b' s t Hab Hst]; subst. simpl.
      f_equal; [now apply lower_char_same_letter | now apply IH].
Qed.

(** The test of the filter callback is case-insensitive containment. *)
Lemma includes_toLowerCase (prompt term : string) :
  ModerationSpec.no_upper term = true ->
  (includes (toLowerCase prompt) term = true <-> ModerationSpec.contains_ci prompt term).
Proof.
  intros Hno. rewrite includes_spec. unfold ModerationSpec.contains_ci. split.
  - intros (pre & post & H).
    apply toLowerCase_app_inv in H as (a & b & -> & Ha & Hb).
    apply toLowerCase_app_inv in Hb as (m & c & -> & Hm & Hc).
    exists a, m, c. split; [reflexivity | now apply toLowerCase_ci_eq].
  - intros (pre & mid & post & -> & H).
    apply toLowerCase_ci_eq in H; [|assumption].
    exists (toLowerCase pre), (toLowerCase post).
    now rewrite !toLowerCase_app, H.
Qed.

End StringFacts.

(** ** The Moderation Filter *)

Lemma blacklist_no_upper (term : string) :
  In term blacklist -> ModerationSpec.no_upper term = true.
Proof.
  revert term. apply forallb_forall. vm_compute. reflexivity.
Qed.

Lemma blacklist_NoDup : NoDup blacklist.
Proof.
  apply (bool_decide_unpack _). vm_compute. reflexivity.
Qed.

Lemma filter_keeps_order {A} (f : A -> bool) (l : list A) :
  sublist (List.filter f l) l.
Proof.
  induction l as [|x l IH]; simpl.
  - constructor.
  - destruct (f x); now constructor.
Qed.

(** The terms that [moderateContent] collects for a string prompt. *)
Lemma moderateContent_string (prompt : string) :
  moderateContent (VStr prompt) =
  inr match List.filter (fun word => includes (toLowerCase prompt) word) blacklist with
      | [] => {| allowed := true; reason := None |}
      | (_ :: _) as matches =>
          {| allowed := false;
             reason := Some ("Prompt contains restricted words: " +:+ join ", " matches) |}
      end.
Proof.
  unfold moderateContent. cbn [call_toLowerCase try_bind].
  destruct (List.filter _ blacklist); reflexivity.
Qed.

(** C2. For a prompt that is a string of ASCII characters, let [matched] be
    the blacklisted terms that occur in it as case-insensitive substrings,
    kept in blacklist order.  When [matched] is empty [moderateContent]
    returns [allowed = true]; otherwise it returns [allowed = false] with the
    reason ["Prompt contains restricted words: "] followed by the terms of
    [matched] joined with [", "]. *)
Theorem moderate_blacklisted_terms (prompt : string) :
  is_ascii prompt = true ->
  exists matched : list string,
    sublist matched blacklist /\
    (forall term,
       In term matched <->
       In term blacklist /\ ModerationSpec.contains_ci prompt term) /\
    moderateContent (VStr prompt) =
    inr match matched with
        | [] => {| allowed := true; reason := None |}
        | _ :: _ =>
            {| allowed := false;
               reason := Some ("Prompt contains restricted words: " +:+ join ", " matched) |}
        end.
Proof.
  intros _.
  exists (List.filter (fun word => includes (toLowerCase prompt) word) blacklist).
  split; [apply filter_keeps_order|]. split.
  - intros term. rewrite filter_In. split.
    + intros [Hin H]. split; [assumption|].
      apply includes_toLowerCase; [now apply blacklist_no_upper | assumption].
    + intros [Hin H]. split; [assumption|].
      apply includes_toLowerCase; [now apply blacklist_no_upper | assumption].
  - rewrite moderateContent_string.
    destruct (List.filter _ blacklist); reflexivity.
Qed.

Lemma moderate_blacklisted_witness :
  let prompt := "A Starfish wearing a DISNEY hat" in
  is_ascii prompt = true /\
  exists matched : list string,
    sublist matched blacklist /\
    (forall term,
       In term matched <->
       In term blacklist /\ ModerationSpec.contains_ci prompt term) /\
    moderateContent (VStr prompt) =
    inr match matched with
        | [] => {| allowed := true; reason := None |}
        | _ :: _ =>
            {| allowed := false;
               reason := Some ("Prompt contains restricted words: " +:+ join ", " matched) |}
        end.
Proof.
  cbv zeta. split; [reflexivity|].
  apply (moderate_blacklisted_terms "A Starfish wearing a DISNEY hat"). reflexivity.
Defined.

(** ** The Generation Gateway *)

Lemma moderateContent_rejects (prompt : Value) (d : ModerationDecision) :
  moderateContent prompt = inr d -> allowed d = false ->
  exists why, reason d = Some why.
Proof.
  destruct prompt; try discriminate.
  rewrite moderateContent_string.
  destruct (List.filter _ blacklist); intros [= <-]; simpl; [discriminate | eauto].
Qed.

(** C5. When the Moderation Filter rejects the prompt of a request, both
    variants of [generate] answer HTTP 400 with the error
    ["Content not allowed"] and the filter's reason as message, without
    making any call to their environment, so none to the upstream provider.
    The answer differs from every rate-limit rejection (status 429) and from
    every upstream error (status 500). *)
Theorem moderation_rejection_is_client_error
    (env : Env) (w : World) (req_body prompt : Value) (d : ModerationDecision) :
  JS.get req_body "prompt" = inr prompt ->
  moderateContent prompt = inr d ->
  allowed d = false ->
  exists why,
    reason d = Some why /\
    let rejection :=
      {| status := 400;
         content := JSON (VObj [("error", VStr "Content not allowed");
                                ("message", VStr why)]) |} in
    run w (StabilityVariant.generate env req_body) = (inr rejection, []) /\
    run w (OpenAIVariant.generate req_body) = (inr rejection, []) /\
    (forall o, rejection <> GatewaySpec.too_many o) /\
    (forall msg, rejection <> GatewaySpec.upstream_error msg).
Proof.
  intros Hget Hmod Hno.
  destruct (moderateContent_rejects _ _ Hmod Hno) as [why Hwhy].
  exists why. split; [assumption|]. cbv zeta. repeat split.
  - unfold StabilityVariant.generate, JS.destructure. rewrite Hget. simpl. rewrite Hmod. simpl.
    rewrite Hno. simpl. unfold content_not_allowed. now rewrite Hwhy.
  - unfold OpenAIVariant.generate, JS.destructure. rewrite Hget. simpl. rewrite Hmod. simpl.
    rewrite Hno. simpl. unfold content_not_allowed. now rewrite Hwhy.
  - intros o [=].
  - intros msg [=].
Qed.

Lemma moderation_rejection_witness :
  let req_body := Samples.body_of "prompt" (VStr "The Disney logo as a pin") in
  let d := {| allowed := false;
              reason := Some "Prompt contains restricted words: logo, disney" |} in
  moderateContent (VStr "The Disney logo as a pin") = inr d /\
  exists why,
    reason d = Some why /\
    let rejection :=
      {| status := 400;
         content := JSON (VObj [("error", VStr "Content not allowed");
                                ("message", VStr why)]) |} in
    run Samples.world (StabilityVariant.generate Samples.env req_body) = (inr rejection, []) /\
    run Samples.world (OpenAIVariant.generate req_body) = (inr rejection, []) /\
    (forall o, rejection <> GatewaySpec.too_many o) /\
    (forall msg, rejection <> GatewaySpec.upstream_error msg).
Proof.
  cbv zeta. split; [vm_compute; reflexivity|].
  apply (moderation_rejection_is_client_error Samples.env Samples.world
           (Samples.body_of "prompt" (VStr "The Disney logo as a pin"))
           (VStr "The Disney logo as a pin")).
  - reflexivity.
  - vm_compute; reflexivity.
  - reflexivity.
Defined.

(** The prompt of the spec's own example holds no blacklisted term. *)
Example moderate_mickey_mouse :
  moderateContent (VStr "a photo of Mickey Mouse") =
  inr {| allowed := true; reason := None |}.
Proof. vm_compute. reflexivity. Qed.

(** The part of [StabilityVariant.generate] that follows a prompt which the
    Moderation Filter allows. *)
Lemma generate_allowed_prompt
    (env : Env) (req_body prompt : Value) (d : ModerationDecision) :
  JS.get req_body "prompt" = inr prompt ->
  moderateContent prompt = inr d ->
  allowed d = true ->
  exists k,
    StabilityVariant.generate env req_body =
    Vis (fetch StabilityVariant.api_url (StabilityVariant.fetch_init env prompt 1)) k.
Proof.
  intros Hget Hmod Hyes. unfold StabilityVariant.generate, JS.destructure.
  rewrite Hget. simpl. rewrite Hmod. simpl. rewrite Hyes. simpl. eauto.
Qed.



Lemma template_text (v : Value) :
  JS.throws v = false -> JS.template v = inr (JS.ToString v).
Proof. intros H. unfold JS.template. now rewrite H. Qed.








(** The OpenAI variant: a failing client call, or an answer without a first
    image, ends in the same 500. *)
Lemma openai_failure_is_server_error (w : World) (req_body prompt : Value)
    (d : ModerationDecision) :
  JS.get req_body "prompt" = inr prompt ->
  moderateContent prompt = inr d ->
  allowed d = true ->
  (forall e, w_openai w = inl e ->
     fst (run w (OpenAIVariant.generate req_body)) =
     inr (GatewaySpec.upstream_error (message e))) /\
  (forall response, w_openai w = inr response ->
     JS.get response "data" = inr (VArr []) ->
     fst (run w (OpenAIVariant.generate req_body)) =
     inr (GatewaySpec.upstream_error "Cannot read properties of undefined (reading 'url')")).
Proof.
  intros Hget Hmod Hyes. unfold OpenAIVariant.generate, JS.destructure.
  rewrite Hget. simpl. rewrite Hmod. simpl. rewrite Hyes. simpl. split.
  - intros e ->. reflexivity.
  - intros response -> Hdata. simpl. rewrite Hdata. reflexivity.
Qed.


Lemma mapM_image_entry (artifacts : list Value) (images : list Value) :
  mapM StabilityVariant.image_entry artifacts = inr images ->
  exists payloads,
    mapM (fun artifact => JS.get artifact "base64") artifacts = inr payloads /\
    images =
    map (fun base64 =>
           VObj [("imageUrl", VStr ("data:image/png;base64," +:+ JS.ToString base64))])
        payloads.
Proof.
  revert images. induction artifacts as [|a l IH]; intros images H; simpl in H.
  - injection H as <-. now exists [].
  - unfold StabilityVariant.image_entry in H at 1.
    destruct (JS.get a "base64") as [e|b] eqn:Hb; simpl in H; [discriminate|].
    unfold JS.template in H.
    destruct (JS.throws b); simpl in H; [discriminate|].
    destruct (mapM StabilityVariant.image_entry l) as [e|l'] eqn:Hl; simpl in H;
      [discriminate|].
    injection H as <-. destruct (IH l' eq_refl) as (payloads & Hp & ->).
    exists (b :: payloads). simpl. rewrite Hb. simpl. rewrite Hp. simpl. now split.
Qed.

Lemma mapM_length {A B} (f : A -> Try B) (l : list A) (l' : list B) :
  mapM f l = inr l' -> length l' = length l.
Proof.
  revert l'. induction l as [|x l IH]; intros l' H; simpl in H.
  - now injection H as <-.
  - destruct (f x); simpl in H; [discriminate|].
    destruct (mapM f l) eqn:Hl; simpl in H; [discriminate|].
    injection H as <-. simpl. f_equal. now apply IH.
Qed.

(** C10. In the Stability variant, whenever [generate] answers 200, the
    upstream call resolved with a successful status and a JSON result whose
    [artifacts] is a non-empty array, and the answer is
    [{ success: true, images }] where [images] holds one entry per artifact,
    in order, each of the form
    [{ imageUrl: "data:image/png;base64," + artifact.base64 }]. *)
Theorem generate_success_lists_every_artifact
    (env : Env) (w : World) (req_body : Value) (r : Response) (calls : list Call) :
  run w (StabilityVariant.generate env req_body) = (inr r, calls) ->
  status r = 200 ->
  exists resp result artifacts payloads,
    w_fetch w = inr resp /\ ok resp = true /\ json resp = inr result /\
    JS.get result "artifacts" = inr (VArr artifacts) /\
    artifacts <> [] /\
    mapM (fun artifact => JS.get artifact "base64") artifacts = inr payloads /\
    length payloads = length artifacts /\
    content r =
    JSON (VObj [("success", VBool true);
                ("images",
                  VArr (map (fun base64 =>
                               VObj [("imageUrl",
                                      VStr ("data:image/png;base64," +:+ JS.ToString base64))])
                            payloads))]).
Proof.
  unfold StabilityVariant.generate, JS.destructure. intros Hrun H200.
  destruct (JS.get req_body "prompt") as [e|prompt]; simpl in Hrun;
    [injection Hrun as <- _; discriminate|].
  destruct (moderateContent prompt) as [e|d]; simpl in Hrun;
    [injection Hrun as <- _; discriminate|].
  destruct (allowed d); simpl in Hrun; [|injection Hrun as <- _; discriminate].
  destruct (w_fetch w) as [e|resp] eqn:Hfetch; simpl in Hrun;
    [injection Hrun as <- _; discriminate|].
  destruct (ok resp) eqn:Hok; simpl in Hrun.
  2:{ unfold StabilityVariant.throw_api_error in Hrun.
      destruct (json resp) as [e|v]; simpl in Hrun; [injection Hrun as <- _; discriminate|].
      destruct (JS.get v "message"); simpl in Hrun; [injection Hrun as <- _; discriminate|].
      destruct (JS.template _); simpl in Hrun; injection Hrun as <- _; discriminate. }
  destruct (json resp) as [e|result] eqn:Hjson; simpl in Hrun;
    [injection Hrun as <- _; discriminate|].
  destruct (JS.get result "artifacts") as [e|artifacts] eqn:Hart; simpl in Hrun;
    [injection Hrun as <- _; discriminate|].
  destruct (JS.truthy artifacts) eqn:Ht; simpl in Hrun;
    [|injection Hrun as <- _; discriminate].
  destruct (JS.get artifacts "length") as [e|len] eqn:Hlen; simpl in Hrun;
    [injection Hrun as <- _; discriminate|].
  destruct (is_zero len) eqn:Hz; simpl in Hrun; [injection Hrun as <- _; discriminate|].
  destruct artifacts as [| | | | |l|]; simpl in Hrun;
    try (injection Hrun as <- _; discriminate).
  destruct (mapM StabilityVariant.image_entry l) as [e|images] eqn:Hmap; simpl in Hrun;
    [injection Hrun as <- _; discriminate|].
  injection Hrun as <- _.
  destruct (mapM_image_entry _ _ Hmap) as (payloads & Hp & ->).
  exists resp, result, l, payloads. repeat split; try assumption; try reflexivity.
  - intros ->. simpl in Hlen. injection Hlen as <-. discriminate.
  - now apply mapM_length in Hp.
Qed.

Lemma generate_success_witness :
  let req_body := Samples.body_of "prompt" (VStr "a blue cat") in
  let r := res_json (VObj [("success", VBool true);
                           ("images",
                             VArr [VObj [("imageUrl", VStr "data:image/png;base64,QUJD")]])]) in
  exists calls,
    run Samples.world (StabilityVariant.generate Samples.env req_body) = (inr r, calls) /\
    exists resp result artifacts payloads,
      w_fetch Samples.world = inr resp /\ ok resp = true /\ json resp = inr result /\
      JS.get result "artifacts" = inr (VArr artifacts) /\
      artifacts <> [] /\
      mapM (fun artifact => JS.get artifact "base64") artifacts = inr payloads /\
      length payloads = length artifacts /\
      content r =
      JSON (VObj [("success", VBool true);
                  ("images",
                    VArr (map (fun base64 =>
                                 VObj [("imageUrl",
                                        VStr ("data:image/png;base64," +:+ JS.ToString base64))])
                              payloads))]).
Proof.
  cbv zeta. eexists. split; [vm_compute; reflexivity|].
  eapply (generate_success_lists_every_artifact Samples.env Samples.world
            (Samples.body_of "prompt" (VStr "a blue cat"))).
  - vm_compute; reflexivity.
  - reflexivity.
Defined.

(** An outcome that is not the wanted status is ruled out. *)
Ltac other_status H :=
  injection H as <- _; simpl in *; discriminate.

(** The only 400 of the Stability [generate] is the moderation failure. *)
Lemma stability_generate_400
    (env : Env) (w : World) (req_body : Value) (r : Response) (calls : list Call) :
  run w (StabilityVariant.generate env req_body) = (inr r, calls) ->
  status r = 400 ->
  exists prompt d,
    JS.get req_body "prompt" = inr prompt /\ moderateContent prompt = inr d /\
    allowed d = false /\ r = content_not_allowed d /\ calls = [].
Proof.
  unfold StabilityVariant.generate, JS.destructure. intros Hrun H400.
  destruct (JS.get req_body "prompt") as [e|prompt] eqn:Hget; simpl in Hrun;
    [other_status Hrun|].
  destruct (moderateContent prompt) as [e|d] eqn:Hmod; simpl in Hrun; [other_status Hrun|].
  destruct (allowed d) eqn:Hd; simpl in Hrun.
  2:{ injection Hrun as <- <-. now exists prompt, d. }
  exfalso.
  destruct (w_fetch w) as [e|resp]; simpl in Hrun; [other_status Hrun|].
  destruct (ok resp); simpl in Hrun.
  2:{ unfold StabilityVariant.throw_api_error in Hrun.
      destruct (json resp) as [e|v]; simpl in Hrun; [other_status Hrun|].
      destruct (JS.get v "message"); simpl in Hrun; [other_status Hrun|].
      destruct (JS.template _); simpl in Hrun; other_status Hrun. }
  destruct (json resp) as [e|result]; simpl in Hrun; [other_status Hrun|].
  destruct (JS.get result "artifacts") as [e|artifacts]; simpl in Hrun; [other_status Hrun|].
  destruct (JS.truthy artifacts); simpl in Hrun; [|other_status Hrun].
  destruct (JS.get artifacts "length") as [e|len]; simpl in Hrun; [other_status Hrun|].
  destruct (is_zero len); simpl in Hrun; [other_status Hrun|].
  destruct (call_map "result.artifacts" artifacts StabilityVariant.image_entry);
    simpl in Hrun; other_status Hrun.
Qed.

(** The only 400 of the OpenAI [generate] is the moderation failure. *)
Lemma openai_generate_400
    (w : World) (req_body : Value) (r : Response) (calls : list Call) :
  run w (OpenAIVariant.generate req_body) = (inr r, calls) ->
  status r = 400 ->
  exists prompt d,
    JS.get req_body "prompt" = inr prompt /\ moderateContent prompt = inr d /\
    allowed d = false /\ r = content_not_allowed d /\ calls = [].
Proof.
  unfold OpenAIVariant.generate, JS.destructure. intros Hrun H400.
  destruct (JS.get req_body "prompt") as [e|prompt] eqn:Hget; simpl in Hrun;
    [other_status Hrun|].
  destruct (moderateContent prompt) as [e|d] eqn:Hmod; simpl in Hrun; [other_status Hrun|].
  destruct (allowed d) eqn:Hd; simpl in Hrun.
  2:{ injection Hrun as <- <-. now exists prompt, d. }
  exfalso.
  destruct (w_openai w) as [e|response]; simpl in Hrun; [other_status Hrun|].
  destruct (JS.get response "data") as [e|data]; simpl in Hrun; [other_status Hrun|].
  destruct (JS.index data 0) as [e|first]; simpl in Hrun; [other_status Hrun|].
  destruct (JS.get first "url") as [e|url]; simpl in Hrun; other_status Hrun.
Qed.

(** C4, on the code.  [generate] has no validation step of its own.  A
    request with the empty prompt passes the Moderation Filter and is handed
    to the upstream provider, whose image is the answer; a request without a
    prompt makes the filter throw and is answered HTTP 500 from the [catch]
    block.  Neither is answered with a validation error, in either variant.
    The sibling route [save-image] does guard its field: without
    [imageData] it answers HTTP 400 and calls nothing. *)
Theorem generate_lacks_prompt_validation :
  let empty := Samples.body_of "prompt" (VStr "") in
  let missing := VObj [] in
  let thrown := TypeError "Cannot read properties of undefined (reading 'toLowerCase')" in
  run Samples.world (StabilityVariant.generate Samples.env empty) =
  (inr (res_json (VObj [("success", VBool true);
                        ("images",
                          VArr [VObj [("imageUrl", VStr "data:image/png;base64,QUJD")]])])),
   [call (fetch StabilityVariant.api_url
            (StabilityVariant.fetch_init Samples.env (VStr "") 1))]) /\
  run Samples.world (OpenAIVariant.generate empty) =
  (inr (res_json (VObj [("success", VBool true);
                        ("imageUrl", VStr "https://img.example.com/1.png")])),
   [call (openai_images_generate (OpenAIVariant.generate_params (VStr "")))]) /\
  run Samples.world (StabilityVariant.generate Samples.env missing) =
  (inr (res_status_json 500
          (VObj [("error", VStr "Failed to generate image");
                 ("message", VStr (message thrown))])),
   [call (console_error "Error generating image:" thrown)]) /\
  run Samples.world (OpenAIVariant.generate missing) =
  (inr (res_status_json 500
          (VObj [("error", VStr "Failed to generate image");
                 ("message", VStr (message thrown))])),
   [call (console_error "Error generating image:" thrown)]) /\
  run Samples.world (StabilityVariant.save_image Samples.env missing) =
  (inr (res_status_json 400 (VObj [("error", VStr "No image data provided")])), []).
Proof. repeat split; vm_compute; reflexivity. Qed.

(** C6, on the code.  [moderateContent] returns [allowed = true] for the
    empty string but throws a [TypeError] for a prompt that is [undefined] or
    [null]; a [generate] request without a prompt therefore ends in the
    [catch] block and is answered HTTP 500. *)
Theorem moderate_throws_without_prompt :
  moderateContent (VStr "") = inr {| allowed := true; reason := None |} /\
  moderateContent VUndefined =
    inl (TypeError "Cannot read properties of undefined (reading 'toLowerCase')") /\
  moderateContent VNull =
    inl (TypeError "Cannot read properties of null (reading 'toLowerCase')") /\
  run Samples.world (StabilityVariant.generate Samples.env (VObj [])) =
  (inr (res_status_json 500
          (VObj [("error", VStr "Failed to generate image");
                 ("message",
                   VStr "Cannot read properties of undefined (reading 'toLowerCase')")])),
   [call (console_error "Error generating image:"
            (TypeError "Cannot read properties of undefined (reading 'toLowerCase')"))]).
Proof. repeat split; vm_compute; reflexivity. Qed.

(** ** The Image Store *)

Section SplitFacts.

Variable sep : string.
Hypothesis sep_not_empty : sep <> "".

Lemma split_aux_skip (x rest acc : string) :
  split_aux sep (x +:+ rest) acc (String.length x) = split_aux sep rest acc 0.
Proof.
  induction x as [|c x IH]; simpl; [reflexivity | exact IH].
Qed.

Lemma startsWith_empty : startsWith "" sep = false.
Proof. destruct sep; [contradiction | reflexivity]. Qed.

Lemma split_aux_no_separator (rest acc : string) :
  includes rest sep = false -> split_aux sep rest acc 0 = [acc +:+ rest].
Proof.
  revert acc. induction rest as [|c r IH]; intros acc H.
  - simpl. now rewrite str_app_nil_r.
  - cbn [includes] in H. apply orb_false_iff in H as [Hs Hi].
    cbn [split_aux]. rewrite Hs, (IH _ Hi), str_app_assoc. reflexivity.
Qed.

Lemma split_aux_first (pre rest acc : string) :
  (forall p1 p2, pre = p1 +:+ p2 -> p2 <> "" ->
                 startsWith (p2 +:+ sep +:+ rest) sep = false) ->
  split_aux sep (pre +:+ sep +:+ rest) acc 0 = (acc +:+ pre) :: split_aux sep rest "" 0.
Proof.
  revert acc. induction pre as [|c p IH]; intros acc Hearly.
  - rewrite str_app_nil_r. cbn [String.append].
    destruct sep as [|a sep'] eqn:Hsep; [contradiction|].
    assert (Hs : startsWith (String a sep' +:+ rest) (String a sep') = true)
      by (apply startsWith_spec; now exists rest).
    cbn [String.append] in *. cbn [split_aux]. rewrite Hs. f_equal.
    cbn [String.length Nat.pred]. rewrite <- Hsep. apply split_aux_skip.
  - cbn [String.append split_aux].
    assert (Hs : startsWith (String c (p +:+ sep +:+ rest)) sep = false).
    { apply (Hearly "" (String c p)); [reflexivity | discriminate]. }
    rewrite Hs, IH.
    + now rewrite str_app_assoc.
    + intros p1 p2 -> Hp2. apply (Hearly (String c p1) p2); [reflexivity | assumption].
Qed.

Lemma split_sole_occurrence (pre rest : string) :
  StoreSpec.sole_occurrence sep pre rest ->
  split (pre +:+ sep +:+ rest) sep = [pre; rest].
Proof.
  intros Hsole. unfold split. rewrite split_aux_first.
  - rewrite split_aux_no_separator; [reflexivity|].
    destruct (includes rest sep) eqn:Hi; [exfalso | reflexivity].
    apply includes_spec in Hi as (a & b & ->).
    assert (H : pre +:+ sep +:+ a = pre).
    { apply (Hsole (pre +:+ sep +:+ a) b). now rewrite !str_app_assoc. }
    apply (f_equal String.length) in H. rewrite !str_app_length in H.
    destruct sep; [contradiction | simpl in H; lia].
  - intros p1 p2 -> Hp2.
    destruct (startsWith (p2 +:+ sep +:+ rest) sep) eqn:Hs; [exfalso | reflexivity].
    apply startsWith_spec in Hs as [post Hs].
    assert (H : p1 = p1 +:+ p2).
    { apply (Hsole p1 post). now rewrite str_app_assoc, Hs. }
    apply (f_equal String.length) in H. rewrite str_app_length in H.
    destruct p2; [contradiction | simpl in H; lia].
Qed.

End SplitFacts.

Lemma occurrences_at_least_one (sep pre rest : string) :
  (1 <= StoreSpec.occurrences sep (pre +:+ sep +:+ rest))%nat.
Proof.
  induction pre as [|c p IH].
  - assert (H : startsWith (sep +:+ rest) sep = true)
      by (apply startsWith_spec; now exists rest).
    destruct (sep +:+ rest) eqn:E; cbn [String.append StoreSpec.occurrences];
      rewrite ?E, H; lia.
  - cbn [String.append StoreSpec.occurrences]. lia.
Qed.

Lemma occurrences_two (sep pre rest pre' rest' : string) :
  pre +:+ sep +:+ rest = pre' +:+ sep +:+ rest' -> pre' <> pre ->
  (2 <= StoreSpec.occurrences sep (pre +:+ sep +:+ rest))%nat.
Proof.
  revert pre'. induction pre as [|c p IH]; intros pre' Heq Hne.
  - destruct pre' as [|c' q]; [contradiction|].
    cbn [String.append] in *. rewrite Heq. cbn [StoreSpec.occurrences].
    assert (H : startsWith (String c' (q +:+ sep +:+ rest')) sep = true)
      by (apply startsWith_spec; exists rest; now rewrite <- Heq).
    rewrite H. pose proof (occurrences_at_least_one sep q rest'). lia.
  - destruct pre' as [|c' q].
    + cbn [String.append] in *. cbn [StoreSpec.occurrences].
      assert (H : startsWith (String c (p +:+ sep +:+ rest)) sep = true)
        by (apply startsWith_spec; exists rest'; now rewrite Heq).
      rewrite H. pose proof (occurrences_at_least_one sep p rest). lia.
    + cbn [String.append] in *. injection Heq as -> Heq.
      cbn [StoreSpec.occurrences].
      assert (Hne' : q <> p) by congruence.
      pose proof (IH q Heq Hne'). lia.
Qed.

(** A separator counted once occurs at one place only. *)
Lemma sole_occurrence_by_count (sep pre rest : string) :
  StoreSpec.occurrences sep (pre +:+ sep +:+ rest) = 1%nat ->
  StoreSpec.sole_occurrence sep pre rest.
Proof.
  intros Hone pre' rest' Heq.
  destruct (String.string_dec pre' pre) as [|Hne]; [assumption|].
  pose proof (occurrences_two sep pre rest pre' rest' Heq Hne). lia.
Qed.

Lemma marker_not_empty : StoreSpec.marker <> "".
Proof. discriminate. Qed.

(** What is decoded for a string payload without the marker, and for one
    that holds it once. *)
Lemma extract_base64_plain (payload : string) :
  ~ (exists pre rest, payload = pre +:+ StoreSpec.marker +:+ rest) ->
  StabilityVariant.extract_base64 (VStr payload) = inr (VStr payload).
Proof.
  intros Hnone. unfold StabilityVariant.extract_base64. cbn [StabilityVariant.call_includes try_bind].
  destruct (includes payload "base64,") eqn:Hi; [|reflexivity].
  exfalso. apply Hnone. now apply includes_spec.
Qed.

Lemma extract_base64_data_uri (pre rest : string) :
  StoreSpec.sole_occurrence StoreSpec.marker pre rest ->
  StabilityVariant.extract_base64 (VStr (pre +:+ StoreSpec.marker +:+ rest)) = inr (VStr rest).
Proof.
  intros Hsole. unfold StabilityVariant.extract_base64.
  cbn [StabilityVariant.call_includes try_bind].
  assert (Hi : includes (pre +:+ StoreSpec.marker +:+ rest) "base64," = true)
    by (apply includes_spec; now exists pre, rest).
  rewrite Hi. cbn [StabilityVariant.call_split try_bind].
  change "base64," with StoreSpec.marker.
  rewrite (split_sole_occurrence _ marker_not_empty _ _ Hsole). reflexivity.
Qed.

Lemma host_configured (env : Env) (url : string) :
  APP_URL env = Some url -> url <> "" -> StabilityVariant.host env = url.
Proof.
  intros H Hne. unfold StabilityVariant.host, JS.or. rewrite H. simpl.
  destruct (String.eqb_spec url ""); [contradiction | reflexivity].
Qed.

Lemma truthy_string (s : string) : s <> "" -> JS.truthy (VStr s) = true.
Proof. intros H. simpl. now destruct (String.eqb_spec s ""). Qed.

(** C8, as the code has it.  [save] answers HTTP 400 exactly when
    [imageData] is missing or falsy.  For a non-empty string payload whose
    write succeeds, the text handed to the base64 decoder is the payload
    itself when it holds no ["base64,"], and the part after ["base64,"] when
    the payload holds that marker once; the decoded bytes are written to
    [uploads/<uuid>.png] under the server directory, and the answer is
    [{ success: true, imageUrl }] where [imageUrl] is the host, ["/uploads/"]
    and the file name.  The host is [APP_URL] when that is configured. *)
Theorem save_image_contract (env : Env) (w : World) (fields : list (string * Value)) :
  let imageData := JS.assoc "imageData" fields in
  let outcome := run w (StabilityVariant.save_image env (VObj fields)) in
  (JS.truthy imageData = false ->
   outcome =
   (inr (res_status_json 400 (VObj [("error", VStr "No image data provided")])), [])) /\
  (JS.truthy imageData = true ->
   exists r calls, outcome = (inr r, calls) /\ status r <> 400) /\
  (forall payload data,
     imageData = VStr payload -> payload <> "" -> w_write w = inr tt ->
     (~ (exists pre rest, payload = pre +:+ StoreSpec.marker +:+ rest) /\ data = payload) \/
     (exists pre, payload = pre +:+ StoreSpec.marker +:+ data /\
                  StoreSpec.sole_occurrence StoreSpec.marker pre data) ->
     let filename := w_uuid w +:+ ".png" in
     outcome =
     (inr (res_json (VObj [("success", VBool true);
                           ("imageUrl",
                             VStr (StabilityVariant.host env +:+ "/uploads/" +:+ filename))])),
      [call crypto_randomUUID;
       call (fs_writeFileSync
               (StabilityVariant.path_join (StabilityVariant.uploadsDir env) filename)
               (Buffer_from (VStr data) "base64"))])) /\
  (forall url, APP_URL env = Some url -> url <> "" -> StabilityVariant.host env = url).
Proof.
  cbv zeta. unfold StabilityVariant.save_image, JS.destructure. cbn [JS.get lift].
  split; [|split; [|split]].
  - intros Hf. simpl. rewrite Hf. reflexivity.
  - intros Ht. simpl. rewrite Ht. simpl.
    destruct (StabilityVariant.extract_base64 (JS.assoc "imageData" fields)) as [e|data];
      simpl; [eexists _, _; split; [reflexivity | discriminate]|].
    destruct (StabilityVariant.call_Buffer_from data "base64") as [e|buffer];
      simpl; [eexists _, _; split; [reflexivity | discriminate]|].
    destruct (w_write w) as [e|[]]; simpl;
      eexists _, _; (split; [reflexivity | discriminate]).
  - intros payload data Himg Hne Hwrite Hdata. simpl. rewrite Himg.
    rewrite (truthy_string _ Hne). simpl.
    assert (Hx : StabilityVariant.extract_base64 (VStr payload) = inr (VStr data)).
    { destruct Hdata as [[Hnone ->] | (pre & -> & Hsole)].
      - now apply extract_base64_plain.
      - now apply extract_base64_data_uri. }
    rewrite Hx. simpl. rewrite Hwrite. reflexivity.
  - apply host_configured.
Qed.

Lemma save_image_witness :
  let fields := [("imageData", VStr "data:image/png;base64,QUJD")] in
  let filename := w_uuid Samples.world +:+ ".png" in
  StoreSpec.sole_occurrence StoreSpec.marker "data:image/png;" "QUJD" /\
  run Samples.world (StabilityVariant.save_image Samples.env (VObj fields)) =
  (inr (res_json (VObj [("success", VBool true);
                        ("imageUrl",
                          VStr (StabilityVariant.host Samples.env +:+ "/uploads/" +:+ filename))])),
   [call crypto_randomUUID;
    call (fs_writeFileSync
            (StabilityVariant.path_join (StabilityVariant.uploadsDir Samples.env) filename)
            (Buffer_from (VStr "QUJD") "base64"))]).
Proof.
  cbv zeta.
  assert (Hsole : StoreSpec.sole_occurrence StoreSpec.marker "data:image/png;" "QUJD")
    by (apply sole_occurrence_by_count; vm_compute; reflexivity).
  split; [exact Hsole|].
  destruct (save_image_contract Samples.env Samples.world
              [("imageData", VStr "data:image/png;base64,QUJD")]) as (_ & _ & H & _).
  apply (H "data:image/png;base64,QUJD" "QUJD").
  - reflexivity.
  - discriminate.
  - reflexivity.
  - right. exists "data:image/png;". split; [reflexivity | exact Hsole].
Defined.

(** A payload that holds the marker twice: only the text between the two
    markers is decoded, neither all that follows the first marker nor what
    follows the last. *)
Lemma second_marker_cuts_payload :
  let payload := "data:image/png;base64,AAAAbase64,BBBB" in
  let filename := w_uuid Samples.world +:+ ".png" in
  payload = "data:image/png;" +:+ StoreSpec.marker +:+ "AAAAbase64,BBBB" /\
  payload = "data:image/png;base64,AAAA" +:+ StoreSpec.marker +:+ "BBBB" /\
  run Samples.world
    (StabilityVariant.save_image Samples.env (VObj [("imageData", VStr payload)])) =
  (inr (res_json (VObj [("success", VBool true);
                        ("imageUrl",
                          VStr ("https://pins.example.com/uploads/" +:+ filename))])),
   [call crypto_randomUUID;
    call (fs_writeFileSync ("/srv/app/uploads/" +:+ filename)
            (Buffer_from (VStr "AAAA") "base64"))]) /\
  Buffer_from (VStr "AAAA") "base64" <> Buffer_from (VStr "AAAAbase64,BBBB") "base64" /\
  Buffer_from (VStr "AAAA") "base64" <> Buffer_from (VStr "BBBB") "base64".
Proof.
  cbv zeta. repeat split; try (vm_compute; reflexivity); intros [=].
Qed.

(** ** The rate limiting middleware *)

Section LimiterFacts.

Variable o : RateLimit.Options.
Hypothesis max_nonneg : 0 <= RateLimit.max o.
Hypothesis window_positive : 0 < RateLimit.windowMs o.

Implicit Types (store : gmap string RateLimit.RateCounterState) (key : string).

Lemma increment_lookup store key now :
  snd (RateLimit.increment o store key now) !! key =
  Some (fst (RateLimit.increment o store key now)).
Proof. unfold RateLimit.increment. simpl. apply lookup_insert_eq. Qed.

Lemma increment_other store key key' now :
  key <> key' ->
  snd (RateLimit.increment o store key now) !! key' = store !! key'.
Proof. intros H. unfold RateLimit.increment. simpl. now apply lookup_insert_ne. Qed.

Lemma rateLimit_store store key now :
  snd (RateLimit.rateLimit o store key now) = snd (RateLimit.increment o store key now).
Proof.
  unfold RateLimit.rateLimit.
  destruct (RateLimit.increment o store key now) as [c store'].
  now destruct (RateLimit.max o <? RateLimit.count c).
Qed.

Lemma rateLimit_decision store key now :
  fst (RateLimit.rateLimit o store key now) =
  if RateLimit.max o <? RateLimit.count (fst (RateLimit.increment o store key now))
  then RateLimit.Reject (GatewaySpec.too_many o)
  else RateLimit.Next.
Proof.
  unfold RateLimit.rateLimit.
  destruct (RateLimit.increment o store key now) as [c store']. cbn [fst].
  now destruct (RateLimit.max o <? RateLimit.count c).
Qed.

Lemma rateLimit_other store key key' now :
  key <> key' ->
  snd (RateLimit.rateLimit o store key now) !! key' = store !! key'.
Proof. intros H. rewrite rateLimit_store. now apply increment_other. Qed.

(** The counter of a fresh identity. *)
Lemma increment_fresh store key now :
  store !! key = None ->
  fst (RateLimit.increment o store key now) =
  {| RateLimit.count := 1; RateLimit.resetTime := now + RateLimit.windowMs o |}.
Proof. intros H. unfold RateLimit.increment. simpl. now rewrite H. Qed.

(** The counter of an identity whose window is current. *)
Lemma increment_current store key now c :
  store !! key = Some c -> now <= RateLimit.resetTime c ->
  fst (RateLimit.increment o store key now) =
  {| RateLimit.count := RateLimit.count c + 1; RateLimit.resetTime := RateLimit.resetTime c |}.
Proof.
  intros H Hnow. unfold RateLimit.increment. simpl. rewrite H.
  destruct (Z.ltb_spec (RateLimit.resetTime c) now); [lia | reflexivity].
Qed.

(** *** Admissions per window *)



(** *** A fresh identity *)

Lemma after_current hits store key c :
  store !! key = Some c ->
  (forall t, In (key, t) hits -> t <= RateLimit.resetTime c) ->
  RateLimit.after o store hits !! key =
  Some {| RateLimit.count := RateLimit.count c + RateLimit.seen key hits;
          RateLimit.resetTime := RateLimit.resetTime c |}.
Proof.
  revert store c. induction hits as [|[key' now] rest IH]; intros store c Hc Hin.
  - simpl. rewrite Hc. unfold RateLimit.seen. simpl. destruct c; simpl. do 2 f_equal. lia.
  - cbn [RateLimit.after]. unfold RateLimit.seen. cbn [List.filter fst].
    destruct (String.eqb_spec key' key) as [->|Hne].
    + rewrite (IH _ {| RateLimit.count := RateLimit.count c + 1;
                       RateLimit.resetTime := RateLimit.resetTime c |}).
      * cbn [RateLimit.count RateLimit.resetTime length]. unfold RateLimit.seen.
        do 2 f_equal. lia.
      * rewrite rateLimit_store, increment_lookup.
        rewrite (increment_current _ _ _ c); [reflexivity | assumption |].
        apply Hin. now left.
      * cbn [RateLimit.resetTime]. intros t Ht. apply Hin. now right.
    + rewrite (IH _ c); [reflexivity | | intros t Ht; apply Hin; now right].
      now rewrite rateLimit_other.
Qed.

(** The first request of a fresh identity is admitted when [max] is at least
    one; the request that follows [n] earlier ones in the same window is
    admitted exactly when [n + 1] is within [max]. *)
Lemma fresh_identity store key t0 hits t :
  store !! key = None ->
  (forall t', In (key, t') hits -> t' < t0 + RateLimit.windowMs o) ->
  t < t0 + RateLimit.windowMs o ->
  RateLimit.admits (fst (RateLimit.rateLimit o store key t0)) = (1 <=? RateLimit.max o) /\
  RateLimit.admits
    (fst (RateLimit.rateLimit o (RateLimit.after o store ((key, t0) :: hits)) key t)) =
  (RateLimit.seen key hits + 2 <=? RateLimit.max o).
Proof.
  intros Hfresh Hin Ht. split.
  - rewrite rateLimit_decision, increment_fresh by assumption. simpl.
    destruct (Z.ltb_spec (RateLimit.max o) 1), (Z.leb_spec 1 (RateLimit.max o));
      simpl; [lia | reflexivity | reflexivity | lia].
  - cbn [RateLimit.after].
    pose proof (after_current hits (snd (RateLimit.rateLimit o store key t0)) key
                  {| RateLimit.count := 1;
                     RateLimit.resetTime := t0 + RateLimit.windowMs o |}) as Hafter.
    rewrite rateLimit_store, increment_lookup, increment_fresh in Hafter by assumption.
    specialize (Hafter eq_refl).
    cbn [RateLimit.count RateLimit.resetTime] in Hafter.
    rewrite rateLimit_store.
    rewrite rateLimit_decision.
    erewrite increment_current; [| apply Hafter; intros t' Ht'; apply Hin in Ht'; lia
                                 | cbn [RateLimit.resetTime]; lia].
    cbn [RateLimit.count].
    destruct (Z.ltb_spec (RateLimit.max o) (1 + RateLimit.seen key hits + 1)),
             (Z.leb_spec (RateLimit.seen key hits + 2) (RateLimit.max o));
      simpl; [lia | reflexivity | reflexivity | lia].
Qed.

(** *** Exceeded windows *)



End LimiterFacts.

(** ** The three limiters of the Stability variant *)

Lemma rateLimit_eq (o : RateLimit.Options)
    (store : gmap string RateLimit.RateCounterState) (key : string) (now : Z) :
  RateLimit.rateLimit o store key now =
  (if RateLimit.max o <? RateLimit.count (fst (RateLimit.increment o store key now))
   then RateLimit.Reject (GatewaySpec.too_many o) else RateLimit.Next,
   snd (RateLimit.increment o store key now)).
Proof.
  rewrite <- rateLimit_decision, <- rateLimit_store.
  now destruct (RateLimit.rateLimit o store key now).
Qed.

Import StabilityVariant.

Lemma limiters_other (st : Stores) (key key' : string) (now t0 n : Z) :
  key' <> key ->
  GatewaySpec.counted st key t0 n ->
  GatewaySpec.counted (snd (limiters st key' now)) key t0 n.
Proof.
  intros Hne (Hd & Hh & Hb). unfold limiters. rewrite !rateLimit_eq.
  repeat match goal with
         | |- context [if ?b then _ else _] => destruct b
         end;
    cbn [snd dailyStore hourlyStore burstStore]; unfold GatewaySpec.counted;
    cbn [dailyStore hourlyStore burstStore];
    rewrite ?increment_other by assumption; auto.
Qed.

Lemma limiters_same (st : Stores) (key : string) (now t0 n : Z) :
  1 <= n -> now <= t0 + 60000 ->
  GatewaySpec.counted st key t0 n ->
  fst (limiters st key now) = GatewaySpec.verdict (n + 1) /\
  GatewaySpec.counted (snd (limiters st key now)) key t0 (n + 1).
Proof.
  intros Hn Hnow (Hd & Hh & Hb). unfold limiters. rewrite !rateLimit_eq.
  unfold GatewaySpec.verdict, GatewaySpec.counted.
  rewrite (increment_current dailyLimiter _ _ _ _ Hd) by (cbn [RateLimit.resetTime]; lia).
  rewrite (increment_current hourlyLimiter _ _ _ _ Hh) by (cbn [RateLimit.resetTime]; lia).
  rewrite (increment_current burstLimiter _ _ _ _ Hb) by (cbn [RateLimit.resetTime]; lia).
  cbn [RateLimit.count RateLimit.resetTime].
  change (RateLimit.max dailyLimiter) with 500.
  change (RateLimit.max hourlyLimiter) with 50.
  change (RateLimit.max burstLimiter) with 20.
  destruct (Z.ltb_spec 500 (n + 1)).
  { cbn [fst snd dailyStore hourlyStore burstStore]. split; [reflexivity|].
    rewrite increment_lookup, (increment_current dailyLimiter _ _ _ _ Hd)
      by (cbn [RateLimit.resetTime]; lia).
    rewrite Hh, Hb. cbn [RateLimit.count RateLimit.resetTime].
    rewrite !Z.min_r by lia. auto. }
  rewrite (Z.min_l n 500) by lia.
  destruct (Z.ltb_spec 50 (n + 1)).
  { cbn [fst snd dailyStore hourlyStore burstStore]. split; [reflexivity|].
    rewrite !increment_lookup, (increment_current dailyLimiter _ _ _ _ Hd),
      (increment_current hourlyLimiter _ _ _ _ Hh)
      by (cbn [RateLimit.resetTime]; lia).
    rewrite Hb. cbn [RateLimit.count RateLimit.resetTime].
    rewrite (Z.min_l (n + 1) 500), (Z.min_l n 500), !(Z.min_r _ 50) by lia. auto. }
  rewrite (Z.min_l n 50) by lia.
  destruct (Z.ltb_spec 20 (n + 1));
    cbn [fst snd dailyStore hourlyStore burstStore]; (split; [reflexivity|]);
    rewrite !increment_lookup, (increment_current dailyLimiter _ _ _ _ Hd),
      (increment_current hourlyLimiter _ _ _ _ Hh),
      (increment_current burstLimiter _ _ _ _ Hb)
      by (cbn [RateLimit.resetTime]; lia);
    cbn [RateLimit.count RateLimit.resetTime];
    rewrite (Z.min_l (n + 1) 500), (Z.min_l n 500), (Z.min_l (n + 1) 50), (Z.min_l n 50)
      by lia; auto.
Qed.

Lemma limiters_fresh (st : Stores) (key : string) (t0 : Z) :
  GatewaySpec.fresh st key ->
  fst (limiters st key t0) = RateLimit.Next /\
  GatewaySpec.counted (snd (limiters st key t0)) key t0 1.
Proof.
  intros (Hd & Hh & Hb). unfold limiters. rewrite !rateLimit_eq.
  rewrite !increment_fresh by assumption. cbn [RateLimit.count].
  change (RateLimit.max dailyLimiter) with 500.
  change (RateLimit.max hourlyLimiter) with 50.
  change (RateLimit.max burstLimiter) with 20.
  cbn [Z.ltb Z.compare Pos.compare Pos.compare_cont fst snd].
  split; [reflexivity|]. unfold GatewaySpec.counted.
  cbn [dailyStore hourlyStore burstStore].
  rewrite !increment_lookup, !increment_fresh by assumption. auto.
Qed.

Lemma after_counted (hits : list (string * Z)) (st : Stores) (key : string) (t0 n : Z) :
  1 <= n ->
  (forall t, In (key, t) hits -> t <= t0 + 60000) ->
  GatewaySpec.counted st key t0 n ->
  GatewaySpec.counted (after st hits) key t0 (n + RateLimit.seen key hits).
Proof.
  revert st n. induction hits as [|[key' now] rest IH]; intros st n Hn Hin Hc.
  - unfold RateLimit.seen. simpl. now rewrite Z.add_0_r.
  - cbn [after]. unfold RateLimit.seen. cbn [List.filter fst].
    destruct (String.eqb_spec key' key) as [->|Hne].
    + destruct (limiters_same st key now t0 n Hn) as [_ Hc']; [|assumption|].
      { apply Hin. now left. }
      specialize (IH _ (n + 1) ltac:(lia) (fun t Ht => Hin t (or_intror Ht)) Hc').
      unfold RateLimit.seen in IH. cbn [length].
      replace (n + Z.of_nat (S (length (List.filter (fun h => String.eqb (fst h) key) rest))))
        with (n + 1 + Z.of_nat (length (List.filter (fun h => String.eqb (fst h) key) rest)))
        by lia.
      exact IH.
    + apply IH; [assumption | intros t Ht; apply Hin; now right |].
      now apply limiters_other.
Qed.


(** *** Admissions per window behind the three limiters *)




(** ** The application *)

Lemma run_bind {A B} (w : World) (p : Prog A) (f : A -> Prog B) :
  run w (bind p f) =
  match run w p with
  | (inr a, t) => let '(r, t') := run w (f a) in (r, (t ++ t')%list)
  | (inl e, t) => (inl e, t)
  end.
Proof.
  induction p as [a|e|X ev k IH]; simpl.
  - now destruct (run w (f a)).
  - reflexivity.
  - rewrite IH. destruct (run w (k (answer w ev))) as [[e|a] t]; [reflexivity|].
    now destruct (run w (f a)).
Qed.



Lemma app_not_options (env : Env) (st : Stores) (req : Request) :
  method req <> OPTIONS ->
  app env st req =
  bind (if static_mount req then trigger (express_static (path req)) else Ret None)
    (fun served =>
       match served with
       | Some file => Ret ({| status := 200; content := File file |}, st)
       | None =>
           bind (if static_mount req then trigger (express_static_redirect (path req))
                 else Ret None)
             (fun moved =>
                match moved with
                | Some location => Ret ({| status := 301; content := Moved location |}, st)
                | None =>
                    match governor env st (ip req) (now req) with
                    | (RateLimit.Reject r, st') => Ret (r, st')
                    | (RateLimit.Next, st') => bind (route env req) (fun r => Ret (r, st'))
                    end
                end)
       end).
Proof. intros H. unfold app. now destruct (method req). Qed.

(** A request that the static middleware passes on reaches the governor. *)
Lemma run_app_governed (env : Env) (st : Stores) (req : Request) (w : World) :
  method req <> OPTIONS ->
  GatewaySpec.passes_static w req ->
  run w (app env st req) =
  let '(x, calls) :=
    run w match governor env st (ip req) (now req) with
          | (RateLimit.Reject r, st') => Ret (r, st')
          | (RateLimit.Next, st') => bind (route env req) (fun r => Ret (r, st'))
          end in
  (x, (GatewaySpec.static_calls req ++ calls)%list).
Proof.
  intros Hm Hstatic. rewrite app_not_options by assumption.
  unfold GatewaySpec.passes_static, GatewaySpec.static_calls in *.
  destruct (static_mount req); cbn [trigger bind run answer].
  - destruct (Hstatic eq_refl) as [Hfile Hdir].
    rewrite Hfile. cbn [trigger bind run answer]. rewrite Hdir.
    now destruct (run w _) as [x calls].
  - now destruct (run w _) as [x calls].
Qed.



(** X14.  Files below [/uploads] are served before the limiters are reached. *)
Lemma static_files_precede_limiters
    (env : Env) (st : Stores) (req : Request) (w : World) (file : Buffer) :
  method req <> OPTIONS ->
  static_mount req = true -> w_static w = Some file ->
  run w (app env st req) =
  (inr ({| status := 200; content := File file |}, st),
   [call (express_static (path req))]).
Proof.
  intros Hm Hs Hfile. rewrite app_not_options by assumption.
  rewrite Hs. simpl. rewrite Hfile. reflexivity.
Qed.

(** *** Requests over the ceiling of a window *)












(** ** The toggle *)

Lemma governor_disabled (env : Env) (st : Stores) (key : string) (now : Z) :
  DISABLE_RATE_LIMIT env = Some "true" ->
  governor env st key now = (RateLimit.Next, st).
Proof. intros H. unfold governor, rate_limit_enabled. now rewrite H. Qed.

Lemma route_ignores_toggle (env : Env) (v v' : option string) (req : Request) :
  route (GatewaySpec.set_DISABLE_RATE_LIMIT env v) req =
  route (GatewaySpec.set_DISABLE_RATE_LIMIT env v') req.
Proof. reflexivity. Qed.

Lemma run_route_pair (env : Env) (st' : Stores) (req : Request) (w : World) :
  GatewaySpec.answer_of (run w (bind (route env req) (fun r => Ret (r, st')))) =
  run w (route env req).
Proof.
  rewrite run_bind.
  destruct (run w (route env req)) as [[e|r] calls]; unfold GatewaySpec.answer_of;
    simpl; [reflexivity|]. now rewrite app_nil_r.
Qed.

Lemma app_admitted (env : Env) (st st' : Stores) (req : Request) (w : World) :
  governor env st (ip req) (now req) = (RateLimit.Next, st') ->
  GatewaySpec.answer_of (run w (app env st req)) =
  match method req with
  | OPTIONS => (inr {| status := 204; content := NoBody |}, [])
  | _ =>
      if static_mount req then
        match w_static w with
        | Some file =>
            (inr {| status := 200; content := File file |},
             [call (express_static (path req))])
        | None =>
            match w_redirect w with
            | Some location =>
                (inr {| status := 301; content := Moved location |},
                 [call (express_static (path req));
                  call (express_static_redirect (path req))])
            | None =>
                let '(r, calls) := run w (route env req) in
                (r, call (express_static (path req)) ::
                    call (express_static_redirect (path req)) :: calls)
            end
        end
      else run w (route env req)
  end.
Proof.
  intros Hgov. destruct (method req) eqn:Hm.
  6:{ unfold app. rewrite Hm. reflexivity. }
  all: rewrite app_not_options by (rewrite Hm; discriminate).
  all: destruct (static_mount req); cbn [trigger bind run answer];
    [ destruct (w_static w); [reflexivity|]; cbn [trigger bind run answer];
      destruct (w_redirect w); [reflexivity|]; rewrite Hgov;
      rewrite <- (run_route_pair env st' req w);
      destruct (run w (bind (route env req) (fun r => Ret (r, st')))) as [[e|[r s]] t];
      reflexivity
    | rewrite Hgov; apply run_route_pair ].
Qed.

Lemma app_disabled_keeps_counters
    (env : Env) (st st' : Stores) (req : Request) (w : World)
    (r : Response) (calls : list Call) :
  DISABLE_RATE_LIMIT env = Some "true" ->
  run w (app env st req) = (inr (r, st'), calls) -> st' = st.
Proof.
  intros Hoff. destruct (method req) eqn:Hm.
  6:{ unfold app. rewrite Hm. simpl. now intros [= _ <- _]. }
  all: rewrite app_not_options by (rewrite Hm; discriminate).
  all: rewrite (governor_disabled env st _ _ Hoff).
  all: destruct (static_mount req); cbn [trigger bind run answer];
    [ destruct (w_static w); [simpl; now intros [= _ <- _]|];
      cbn [trigger bind run answer];
      destruct (w_redirect w); [simpl; now intros [= _ <- _]|] | ];
    rewrite run_bind; destruct (run w (route env req)) as [[e|x] t]; simpl;
    intros [=]; congruence.
Qed.

(** C9. Setting [DISABLE_RATE_LIMIT] to ["true"] switches the governor off:
    it admits every request and leaves the counters untouched, so serving a
    request never changes them.  Any other setting leaves the three limiters
    in place.  Nothing else depends on the toggle: whenever the governor
    admits a request under some setting, the answer and the calls made are
    those of the server with the governor switched off. *)
Theorem rate_limit_toggle (env : Env) (st : Stores) (req : Request) (w : World) :
  let off := GatewaySpec.set_DISABLE_RATE_LIMIT env (Some "true") in
  (forall key now, governor off st key now = (RateLimit.Next, st)) /\
  (forall r st' calls, run w (app off st req) = (inr (r, st'), calls) -> st' = st) /\
  (forall v key now,
     v <> Some "true" ->
     governor (GatewaySpec.set_DISABLE_RATE_LIMIT env v) st key now = limiters st key now) /\
  (forall v st',
     governor (GatewaySpec.set_DISABLE_RATE_LIMIT env v) st (ip req) (now req) =
       (RateLimit.Next, st') ->
     GatewaySpec.answer_of (run w (app (GatewaySpec.set_DISABLE_RATE_LIMIT env v) st req)) =
     GatewaySpec.answer_of (run w (app off st req))).
Proof.
  cbv zeta. split; [|split; [|split]].
  - intros key now. now apply governor_disabled.
  - intros r st' calls. now apply app_disabled_keeps_counters.
  - intros v key now Hv. unfold governor, rate_limit_enabled. simpl.
    destruct v as [s|]; [|reflexivity].
    destruct (String.eqb_spec s "true") as [->|]; [contradiction | reflexivity].
  - intros v st' Hgov.
    rewrite (app_admitted _ st st' req w Hgov).
    rewrite (app_admitted _ st st req w
               (governor_disabled (GatewaySpec.set_DISABLE_RATE_LIMIT env (Some "true"))
                  st _ _ eq_refl)).
    reflexivity.
Qed.

Lemma rate_limit_toggle_witness :
  let req := Samples.request POST "/generate"
               (Samples.body_of "prompt" (VStr "a blue cat")) 1000 in
  let off := GatewaySpec.set_DISABLE_RATE_LIMIT Samples.env (Some "true") in
  governor Samples.env Samples.exhausted (ip req) (now req) =
    (RateLimit.Reject (GatewaySpec.too_many dailyLimiter),
     snd (limiters Samples.exhausted (ip req) (now req))) /\
  governor Samples.env no_counters (ip req) (now req) =
    (RateLimit.Next, snd (limiters no_counters (ip req) (now req))) /\
  GatewaySpec.answer_of (run Samples.world (app Samples.env no_counters req)) =
  GatewaySpec.answer_of (run Samples.world (app off no_counters req)).
Proof.
  cbv zeta. split; [|split].
  - vm_compute. reflexivity.
  - vm_compute. reflexivity.
  - destruct (rate_limit_toggle Samples.env no_counters
                (Samples.request POST "/generate"
                   (Samples.body_of "prompt" (VStr "a blue cat")) 1000)
                Samples.world) as (_ & _ & _ & H).
    apply (H None (snd (limiters no_counters "203.0.113.7" 1000))).
    vm_compute. reflexivity.
Defined.

(** * Further properties *)

(** ** Handlers never throw *)

Lemma run_try_catch {A} (w : World) (p : Prog A) (h : Exn -> Prog A) :
  run w (try_catch p h) =
  match run w p with
  | (inr a, t) => (inr a, t)
  | (inl e, t) => let '(r, t') := run w (h e) in (r, (t ++ t')%list)
  end.
Proof.
  induction p as [a|e|X ev k IH]; simpl.
  - reflexivity.
  - now destruct (run w (h e)).
  - rewrite IH. destruct (run w (k (answer w ev))) as [[e|a] t]; [|reflexivity].
    now destruct (run w (h e)).
Qed.

(** A route body wrapped in [try ... catch] with the logging [catch] block. *)
Lemma run_handler (w : World) (p : Prog Response) (label err : string) :
  run w (try_catch p (on_error label err)) =
  match run w p with
  | (inr r, t) => (inr r, t)
  | (inl e, t) =>
      (inr (Observed.server_error err (message e)),
       (t ++ [call (console_error label e)])%list)
  end.
Proof.
  rewrite run_try_catch. destruct (run w p) as [[e|r] t]; reflexivity.
Qed.

(** Case analysis along a handler: every step that can throw, every await and
    every test is split in turn. *)
Ltac handler_step :=
  match goal with
  | |- context [JS.destructure ?s ?v ?p] =>
      unfold JS.destructure; destruct (JS.get v p) eqn:?
  | |- context [lift ?x] => destruct x eqn:?
  | |- context [match w_fetch ?w with _ => _ end] => destruct (w_fetch w) eqn:?
  | |- context [match w_openai ?w with _ => _ end] => destruct (w_openai w) eqn:?
  | |- context [match w_write ?w with _ => _ end] => destruct (w_write w) as [?|[]] eqn:?
  | |- context [if negb ?b then _ else _] => destruct b eqn:?
  | |- context [if ?b then _ else _] => destruct b eqn:?
  end.

Ltac handler_cases := simpl; repeat (handler_step; simpl).

(** ** One upstream call at most *)

(** X1.  [generate] calls its provider once when the prompt is there and passes
    the Moderation Filter, with that very prompt, and not at all otherwise:
    there is no second call and no retry, whatever the provider answers. *)
Theorem generate_calls_upstream_once (env : Env) (w : World) (req_body : Value) :
  List.filter Observed.is_upstream_call
    (snd (run w (StabilityVariant.generate env req_body))) =
  match Observed.moderated_prompt req_body with
  | Some prompt =>
      [call (fetch StabilityVariant.api_url (StabilityVariant.fetch_init env prompt 1))]
  | None => []
  end /\
  List.filter Observed.is_upstream_call (snd (run w (OpenAIVariant.generate req_body))) =
  match Observed.moderated_prompt req_body with
  | Some prompt => [call (openai_images_generate (OpenAIVariant.generate_params prompt))]
  | None => []
  end.
Proof.
  unfold Observed.moderated_prompt. split.
  - unfold StabilityVariant.generate, StabilityVariant.throw_api_error.
    handler_cases; reflexivity.
  - unfold OpenAIVariant.generate. handler_cases; reflexivity.
Qed.

(** ** Every handler answers *)

Ltac answer_found :=
  match goal with
  | |- exists r calls, (inr ?x, ?t) = _ /\ _ =>
      exists x, t; split; [reflexivity | simpl; auto 6]
  end.

(** X2.  Whatever the request body and whatever the environment does, the four
    handlers with a [try ... catch] end with a response, never with an
    exception: [generate] and [save-image] with status 200, 400 or 500, the
    test route with 200 or 500. *)
Theorem handlers_always_answer (env : Env) (w : World) (req_body : Value) :
  (exists r calls,
     run w (StabilityVariant.generate env req_body) = (inr r, calls) /\
     In (status r) [200; 400; 500]) /\
  (exists r calls,
     run w (OpenAIVariant.generate req_body) = (inr r, calls) /\
     In (status r) [200; 400; 500]) /\
  (exists r calls,
     run w (StabilityVariant.save_image env req_body) = (inr r, calls) /\
     In (status r) [200; 400; 500]) /\
  (exists r calls,
     run w (StabilityVariant.test_stability env) = (inr r, calls) /\
     In (status r) [200; 500]).
Proof.
  repeat split.
  - unfold StabilityVariant.generate, StabilityVariant.throw_api_error.
    handler_cases.
    all: answer_found.
  - unfold OpenAIVariant.generate.
    handler_cases.
    all: answer_found.
  - unfold StabilityVariant.save_image.
    handler_cases.
    all: answer_found.
  - unfold StabilityVariant.test_stability, StabilityVariant.throw_api_error.
    handler_cases.
    all: answer_found.
Qed.

(** ** Errors are logged *)

Ltac logged_or_not :=
  solve [ left; eexists; (split; [|reflexivity]); reflexivity
        | right; split; [simpl; discriminate | reflexivity] ].

(** X3.  A handler logs an error exactly when it answers 500: then it logged one
    error, under the route's label, and the answer carries the route's error
    text and the message of the logged error.  With any other status nothing
    was logged. *)
Theorem server_errors_are_logged
    (env : Env) (w : World) (req_body : Value) (r : Response) (calls : list Call) :
  (run w (StabilityVariant.generate env req_body) = (inr r, calls) ->
   (exists e, r = Observed.server_error "Failed to generate image" (message e) /\
              Observed.logged calls = [("Error generating image:", e)]) \/
   (status r <> 500 /\ Observed.logged calls = [])) /\
  (run w (OpenAIVariant.generate req_body) = (inr r, calls) ->
   (exists e, r = Observed.server_error "Failed to generate image" (message e) /\
              Observed.logged calls = [("Error generating image:", e)]) \/
   (status r <> 500 /\ Observed.logged calls = [])) /\
  (run w (StabilityVariant.save_image env req_body) = (inr r, calls) ->
   (exists e, r = Observed.server_error "Failed to save image" (message e) /\
              Observed.logged calls = [("Error saving image:", e)]) \/
   (status r <> 500 /\ Observed.logged calls = [])) /\
  (run w (StabilityVariant.test_stability env) = (inr r, calls) ->
   (exists e, r = Observed.server_error "API test failed" (message e) /\
              Observed.logged calls = [("Stability AI Test Error:", e)]) \/
   (status r <> 500 /\ Observed.logged calls = [])).
Proof.
  repeat split.
  - unfold StabilityVariant.generate, StabilityVariant.throw_api_error.
    handler_cases.
    all: intros [= <- <-]; logged_or_not.
  - unfold OpenAIVariant.generate.
    handler_cases.
    all: intros [= <- <-]; logged_or_not.
  - unfold StabilityVariant.save_image.
    handler_cases.
    all: intros [= <- <-]; logged_or_not.
  - unfold StabilityVariant.test_stability, StabilityVariant.throw_api_error.
    handler_cases.
    all: intros [= <- <-]; logged_or_not.
Qed.

Lemma server_errors_witness :
  let req_body := Samples.body_of "prompt" (VStr "a blue cat") in
  let r := Observed.server_error "Failed to generate image" "No image generated" in
  let calls :=
    [call (fetch StabilityVariant.api_url
             (StabilityVariant.fetch_init Samples.env (VStr "a blue cat") 1));
     call (console_error "Error generating image:" (Error "No image generated"))] in
  run Samples.world_no_image (StabilityVariant.generate Samples.env req_body) =
    (inr r, calls) /\
  ((exists e, r = Observed.server_error "Failed to generate image" (message e) /\
              Observed.logged calls = [("Error generating image:", e)]) \/
   (status r <> 500 /\ Observed.logged calls = [])).
Proof.
  cbv zeta.
  assert (Hrun : run Samples.world_no_image
                   (StabilityVariant.generate Samples.env
                      (Samples.body_of "prompt" (VStr "a blue cat"))) =
                 (inr (Observed.server_error "Failed to generate image" "No image generated"),
                  [call (fetch StabilityVariant.api_url
                           (StabilityVariant.fetch_init Samples.env (VStr "a blue cat") 1));
                   call (console_error "Error generating image:"
                           (Error "No image generated"))]))
    by (vm_compute; reflexivity).
  split; [exact Hrun|].
  exact (proj1 (server_errors_are_logged Samples.env Samples.world_no_image
                  (Samples.body_of "prompt" (VStr "a blue cat")) _ _) Hrun).
Defined.

(** ** Prompts that are not strings *)

(** X4.  A prompt that is present but is not a string (a number, a boolean, an
    array, an object, [null]) makes [moderateContent] throw, and both
    variants of [generate] answer 500 after logging the error, without any
    call to the provider. *)
Theorem non_string_prompt_is_server_error
    (env : Env) (w : World) (req_body prompt : Value) :
  JS.get req_body "prompt" = inr prompt ->
  Observed.is_string prompt = false ->
  exists e,
    moderateContent prompt = inl e /\
    run w (StabilityVariant.generate env req_body) =
      (inr (Observed.server_error "Failed to generate image" (message e)),
       [call (console_error "Error generating image:" e)]) /\
    run w (OpenAIVariant.generate req_body) =
      (inr (Observed.server_error "Failed to generate image" (message e)),
       [call (console_error "Error generating image:" e)]).
Proof.
  intros Hget Hns. unfold StabilityVariant.generate, OpenAIVariant.generate, JS.destructure.
  rewrite Hget. destruct prompt; try discriminate; eexists; (split; [reflexivity|]);
    split; reflexivity.
Qed.

Lemma non_string_prompt_witness :
  let req_body := Samples.body_of "prompt" (VNum 42) in
  exists e,
    moderateContent (VNum 42) = inl e /\
    run Samples.world (StabilityVariant.generate Samples.env req_body) =
      (inr (Observed.server_error "Failed to generate image" (message e)),
       [call (console_error "Error generating image:" e)]) /\
    run Samples.world (OpenAIVariant.generate req_body) =
      (inr (Observed.server_error "Failed to generate image" (message e)),
       [call (console_error "Error generating image:" e)]).
Proof.
  cbv zeta.
  apply (non_string_prompt_is_server_error Samples.env Samples.world
           (Samples.body_of "prompt" (VNum 42)) (VNum 42)); reflexivity.
Defined.

(** ** More on the Moderation Filter *)

Lemma moderate_rejects_iff (prompt : string) :
  (exists d, moderateContent (VStr prompt) = inr d /\ allowed d = false) <->
  (exists term, In term blacklist /\ includes (toLowerCase prompt) term = true).
Proof.
  rewrite moderateContent_string.
  destruct (List.filter (fun word => includes (toLowerCase prompt) word) blacklist)
    as [|t l] eqn:Hf.
  - split.
    + intros (d & [= <-] & H). discriminate.
    + intros (term & Hin & H).
      assert (Hx : In term (List.filter (fun word => includes (toLowerCase prompt) word)
                              blacklist)) by (apply filter_In; now split).
      rewrite Hf in Hx. destruct Hx.
  - split.
    + intros _. exists t.
      apply (proj1 (filter_In (fun word => includes (toLowerCase prompt) word) t blacklist)).
      rewrite Hf. now left.
    + intros _. eexists. split; reflexivity.
Qed.

Lemma moderate_string_total (prompt : string) :
  exists d, moderateContent (VStr prompt) = inr d.
Proof. rewrite moderateContent_string. eauto. Qed.

(** X5.  The filter is monotone: text added before or after a rejected prompt
    cannot make it acceptable. *)
Theorem moderation_survives_embedding (before prompt behind : string)
    (d : ModerationDecision) :
  moderateContent (VStr prompt) = inr d ->
  allowed d = false ->
  exists d',
    moderateContent (VStr (before +:+ prompt +:+ behind)) = inr d' /\
    allowed d' = false.
Proof.
  intros Hd Hno.
  apply moderate_rejects_iff. 
  destruct (proj1 (moderate_rejects_iff prompt)) as (term & Hin & Hinc); [eauto|].
  exists term. split; [assumption|].
  apply includes_spec in Hinc as (pre & post & Hp).
  apply includes_spec. rewrite !toLowerCase_app, Hp.
  exists (toLowerCase before +:+ pre), (post +:+ toLowerCase behind).
  now rewrite !str_app_assoc.
Qed.

Lemma moderation_embedding_witness :
  moderateContent (VStr "Pokemon") =
    inr {| allowed := false;
           reason := Some "Prompt contains restricted words: pokemon" |} /\
  exists d',
    moderateContent (VStr ("a pin of " +:+ "Pokemon" +:+ " cards")) = inr d' /\
    allowed d' = false.
Proof.
  split; [vm_compute; reflexivity|].
  apply (moderation_survives_embedding "a pin of " "Pokemon" " cards"
           {| allowed := false;
              reason := Some "Prompt contains restricted words: pokemon" |}).
  - vm_compute; reflexivity.
  - reflexivity.
Defined.

Lemma same_letter_lower (a b : ascii) :
  ModerationSpec.same_letter a b -> lower_char a = lower_char b.
Proof.
  assert (Hup : forall x y, is_upper x = true -> N_of_ascii y = (N_of_ascii x + 32)%N ->
                            lower_char x = lower_char y).
  { intros x y Hx Hy. apply N_of_ascii_inj. rewrite lower_char_upper by assumption.
    assert (Hny : is_upper y = false).
    { apply upper_bound in Hx. unfold is_upper. rewrite Hy. cbv zeta.
      apply andb_false_iff. right. apply N.leb_gt. lia. }
    unfold lower_char at 1. rewrite Hny. now symmetry. }
  intros [-> | [[Ha Hn] | [Hb Hn]]]; [reflexivity | now apply Hup |].
  symmetry. now apply Hup.
Qed.

Lemma ci_eq_lower (p q : string) :
  ModerationSpec.ci_eq p q -> toLowerCase p = toLowerCase q.
Proof.
  induction 1 as [|a b s t Hab _ IH]; simpl; [reflexivity|].
  now rewrite (same_letter_lower a b Hab), IH.
Qed.

(** X6.  The decision does not depend on the case of the prompt's letters: two
    prompts that differ only in case get the same decision and the same
    reason. *)
Theorem moderation_ignores_case (p q : string) :
  ModerationSpec.ci_eq p q ->
  moderateContent (VStr p) = moderateContent (VStr q).
Proof.
  intros H. rewrite !moderateContent_string. now rewrite (ci_eq_lower p q H).
Qed.

Lemma moderation_case_witness :
  ModerationSpec.ci_eq "MARVEL hero" "marvel Hero" /\
  moderateContent (VStr "MARVEL hero") = moderateContent (VStr "marvel Hero").
Proof.
  assert (H : ModerationSpec.ci_eq "MARVEL hero" "marvel Hero").
  { repeat (constructor;
            [ first [ left; reflexivity
                    | right; left; split; reflexivity
                    | right; right; split; reflexivity ] | ]).
    constructor. }
  split; [exact H|].
  apply (moderation_ignores_case "MARVEL hero" "marvel Hero" H).
Defined.

(** ** When generation succeeds *)

Lemma mapM_image_entry_of (artifacts payloads : list Value) :
  mapM (fun artifact => JS.get artifact "base64") artifacts = inr payloads ->
  forallb Observed.printable payloads = true ->
  mapM StabilityVariant.image_entry artifacts =
  inr (map (fun base64 =>
              VObj [("imageUrl", VStr ("data:image/png;base64," +:+ JS.ToString base64))])
           payloads).
Proof.
  revert payloads. induction artifacts as [|a l IH]; intros payloads H Hp; simpl in H.
  - now injection H as <-.
  - destruct (JS.get a "base64") as [e|b] eqn:Hb; simpl in H; [discriminate|].
    destruct (mapM (fun artifact => JS.get artifact "base64") l) as [e|ps] eqn:Hl;
      simpl in H; [discriminate|].
    injection H as <-. simpl in Hp. apply andb_true_iff in Hp as [Hb' Hp].
    unfold Observed.printable in Hb'. apply andb_true_iff in Hb' as [Hb' _].
    apply negb_true_iff in Hb'.
    simpl. unfold StabilityVariant.image_entry at 1.
    rewrite Hb. simpl. rewrite (template_text _ Hb'). simpl.
    now rewrite (IH ps eq_refl Hp).
Qed.

(** X7.  The Stability [generate] answers 200 whenever the prompt passes the
    filter and the provider answers with a successful status and a JSON
    result whose [artifacts] is a non-empty array of values whose [base64]
    can be read and converted to text (a string, as the provider sends it, or
    another value on which the conversion does not throw): the answer lists
    one data URI per artifact and the only call made is the one [fetch]. *)
Theorem generate_succeeds_on_artifacts
    (env : Env) (w : World) (req_body prompt : Value)
    (resp : FetchResponse) (result : Value) (artifacts payloads : list Value) :
  Observed.moderated_prompt req_body = Some prompt ->
  w_fetch w = inr resp -> ok resp = true -> json resp = inr result ->
  JS.get result "artifacts" = inr (VArr artifacts) ->
  artifacts <> [] ->
  mapM (fun artifact => JS.get artifact "base64") artifacts = inr payloads ->
  forallb Observed.printable payloads = true ->
  run w (StabilityVariant.generate env req_body) =
  (inr (res_json
          (VObj [("success", VBool true);
                 ("images",
                   VArr (map (fun base64 =>
                                VObj [("imageUrl",
                                       VStr ("data:image/png;base64," +:+
                                             JS.ToString base64))])
                             payloads))])),
   [call (fetch StabilityVariant.api_url (StabilityVariant.fetch_init env prompt 1))]).
Proof.
  unfold Observed.moderated_prompt. intros Hmod Hfetch Hok Hjson Hart Hne Hmap Hprint.
  unfold StabilityVariant.generate, JS.destructure.
  destruct (JS.get req_body "prompt") as [e|p]; [discriminate|]. simpl.
  destruct (moderateContent p) as [e|d]; [discriminate|]. simpl.
  destruct (allowed d); [|discriminate]. injection Hmod as ->. simpl.
  rewrite Hfetch. simpl. rewrite Hok. simpl. rewrite Hjson. simpl. rewrite Hart. simpl.
  destruct artifacts as [|a l]; [contradiction|]. cbn [length Z.of_nat is_zero Z.eqb].
  cbn [lift bind mbind prog_bind mret prog_ret try_catch].
  unfold call_map. rewrite (mapM_image_entry_of _ _ Hmap Hprint). reflexivity.
Qed.

Lemma generate_succeeds_witness :
  let req_body := Samples.body_of "prompt" (VStr "a blue cat") in
  Observed.moderated_prompt req_body = Some (VStr "a blue cat") /\
  run Samples.world (StabilityVariant.generate Samples.env req_body) =
  (inr (res_json
          (VObj [("success", VBool true);
                 ("images",
                   VArr (map (fun base64 =>
                                VObj [("imageUrl",
                                       VStr ("data:image/png;base64," +:+
                                             JS.ToString base64))])
                             [VStr "QUJD"]))])),
   [call (fetch StabilityVariant.api_url
            (StabilityVariant.fetch_init Samples.env (VStr "a blue cat") 1))]).
Proof.
  cbv zeta. split; [vm_compute; reflexivity|].
  eapply (generate_succeeds_on_artifacts Samples.env Samples.world
            (Samples.body_of "prompt" (VStr "a blue cat")) (VStr "a blue cat")).
  - vm_compute; reflexivity.
  - reflexivity.
  - reflexivity.
  - reflexivity.
  - reflexivity.
  - discriminate.
  - reflexivity.
  - reflexivity.
Defined.

(** X8.  The OpenAI [generate] answers 200 only when the prompt passed the filter
    and the client call resolved; the answer is then
    [{ success: true, imageUrl }] with [imageUrl] read from
    [response.data[0].url] as it is, [undefined] included, and the only call
    made is the one to the client. *)
Theorem openai_success_shape
    (w : World) (req_body : Value) (r : Response) (calls : list Call) :
  run w (OpenAIVariant.generate req_body) = (inr r, calls) ->
  status r = 200 ->
  exists prompt response data first url,
    Observed.moderated_prompt req_body = Some prompt /\
    w_openai w = inr response /\
    JS.get response "data" = inr data /\
    JS.index data 0 = inr first /\
    JS.get first "url" = inr url /\
    r = res_json (VObj [("success", VBool true); ("imageUrl", url)]) /\
    calls = [call (openai_images_generate (OpenAIVariant.generate_params prompt))].
Proof.
  unfold OpenAIVariant.generate, Observed.moderated_prompt, JS.destructure.
  destruct (JS.get req_body "prompt") as [e|prompt]; simpl; [intros [= <- _]; discriminate|].
  destruct (moderateContent prompt) as [e|d]; simpl; [intros [= <- _]; discriminate|].
  destruct (allowed d); simpl; [|intros [= <- _]; discriminate].
  destruct (w_openai w) as [e|response]; simpl; [intros [= <- _]; discriminate|].
  destruct (JS.get response "data") as [e|data] eqn:Hdata; simpl;
    [intros [= <- _]; discriminate|].
  destruct (JS.index data 0) as [e|first] eqn:Hfirst; simpl;
    [intros [= <- _]; discriminate|].
  destruct (JS.get first "url") as [e|url] eqn:Hurl; simpl;
    [intros [= <- _]; discriminate|].
  intros [= <- <-] _. exists prompt, response, data, first, url. now repeat split.
Qed.

Lemma openai_success_witness :
  let req_body := Samples.body_of "prompt" (VStr "a blue cat") in
  let r := res_json (VObj [("success", VBool true);
                           ("imageUrl", VStr "https://img.example.com/1.png")]) in
  exists calls,
    run Samples.world (OpenAIVariant.generate req_body) = (inr r, calls) /\
    exists prompt response data first url,
      Observed.moderated_prompt req_body = Some prompt /\
      w_openai Samples.world = inr response /\
      JS.get response "data" = inr data /\
      JS.index data 0 = inr first /\
      JS.get first "url" = inr url /\
      r = res_json (VObj [("success", VBool true); ("imageUrl", url)]) /\
      calls = [call (openai_images_generate (OpenAIVariant.generate_params prompt))].
Proof.
  cbv zeta. eexists. split; [vm_compute; reflexivity|].
  apply (openai_success_shape Samples.world
           (Samples.body_of "prompt" (VStr "a blue cat"))).
  - vm_compute; reflexivity.
  - reflexivity.
Defined.

(** ** What [save-image] decodes *)

Section FirstOccurrence.

Variable sep : string.
Hypothesis sep_not_empty : sep <> "".

Lemma first_occurrence (s : string) :
  includes s sep = true ->
  exists pre post, s = pre +:+ sep +:+ post /\ Observed.earliest sep pre post.
Proof.
  induction s as [|c r IH]; intros H.
  - simpl in H. rewrite orb_false_r in H.
    rewrite (startsWith_empty sep sep_not_empty) in H. discriminate.
  - cbn [includes] in H. destruct (startsWith (String c r) sep) eqn:Hs.
    + apply startsWith_spec in Hs as [post ->]. exists "", post. split; [reflexivity|].
      intros p1 p2 Hp Hne. destruct p1; destruct p2; try discriminate. contradiction.
    + simpl in H. destruct (IH H) as (pre & post & -> & Hearly).
      exists (String c pre), post. split; [reflexivity|].
      intros p1 p2 Hp Hne. destruct p1 as [|c' p1]; simpl in Hp.
      * subst p2. exact Hs.
      * injection Hp as _ ->. now apply (Hearly p1 p2).
Qed.

Lemma split_first_piece (pre post : string) :
  Observed.earliest sep pre post ->
  split (pre +:+ sep +:+ post) sep = pre :: split post sep.
Proof.
  intros H. unfold split. now rewrite (split_aux_first sep sep_not_empty pre post "" H).
Qed.

End FirstOccurrence.

(** X9.  For every string payload that holds ["base64,"], the text handed to the
    decoder is what stands between the first marker and the next one, or the
    end of the payload when there is no second marker; with the write
    succeeding, that text is what [save-image] stores. *)
Theorem decoded_text_is_between_markers
    (env : Env) (w : World) (req_body : Value) (payload : string) :
  JS.get req_body "imageData" = inr (VStr payload) ->
  (exists pre rest, payload = pre +:+ "base64," +:+ rest) ->
  exists data,
    Observed.between_markers payload data /\
    StabilityVariant.extract_base64 (VStr payload) = inr (VStr data) /\
    (w_write w = inr tt ->
     Observed.writes (snd (run w (StabilityVariant.save_image env req_body))) =
     [(StabilityVariant.path_join (StabilityVariant.uploadsDir env) (w_uuid w +:+ ".png"),
       Buffer_from (VStr data) "base64")]).
Proof.
  intros Hget Hmark.
  assert (Hinc : includes payload "base64," = true) by now apply includes_spec.
  destruct (first_occurrence "base64," marker_not_empty payload Hinc)
    as (pre & post & Hp & Hearly).
  assert (Hx : forall data, nth 1 (split payload "base64,") "" = data ->
               (1 < length (split payload "base64,"))%nat ->
               StabilityVariant.extract_base64 (VStr payload) = inr (VStr data)).
  { intros data Hnth Hlen. unfold StabilityVariant.extract_base64.
    cbn [StabilityVariant.call_includes try_bind]. rewrite Hinc.
    cbn [StabilityVariant.call_split try_bind JS.index].
    rewrite <- Hnth. f_equal.
    change VUndefined with ((fun _ : unit => VUndefined) tt).
    destruct (split payload "base64,") as [|x [|y l]]; simpl in *; try lia. reflexivity. }
  assert (Hrun : forall data,
             StabilityVariant.extract_base64 (VStr payload) = inr (VStr data) ->
             w_write w = inr tt ->
             Observed.writes (snd (run w (StabilityVariant.save_image env req_body))) =
             [(StabilityVariant.path_join (StabilityVariant.uploadsDir env)
                 (w_uuid w +:+ ".png"),
               Buffer_from (VStr data) "base64")]).
  { intros data Hd Hw. unfold StabilityVariant.save_image, JS.destructure. rewrite Hget. simpl.
    assert (Hne : payload <> "") by (intros ->; discriminate).
    destruct (String.eqb_spec payload ""); [contradiction|]. simpl.
    rewrite Hd. simpl. rewrite Hw. reflexivity. }
  rewrite Hp in Hx. rewrite (split_first_piece "base64," marker_not_empty _ _ Hearly) in Hx.
  destruct (includes post "base64,") eqn:Hpost.
  - destruct (first_occurrence "base64," marker_not_empty post Hpost)
      as (data & rest & Hpost' & Hearly').
    exists data. split; [|split].
    + right. exists pre, rest. rewrite Hp, Hpost'. repeat split.
      * now rewrite <- Hpost'.
      * assumption.
    + rewrite Hp. apply Hx.
      * rewrite Hpost', (split_first_piece "base64," marker_not_empty _ _ Hearly').
        reflexivity.
      * rewrite Hpost', (split_first_piece "base64," marker_not_empty _ _ Hearly').
        simpl. lia.
    + apply Hrun. rewrite Hp. apply Hx.
      * rewrite Hpost', (split_first_piece "base64," marker_not_empty _ _ Hearly').
        reflexivity.
      * rewrite Hpost', (split_first_piece "base64," marker_not_empty _ _ Hearly').
        simpl. lia.
  - assert (Hs : split post "base64," = [post]).
    { unfold split. now rewrite (split_aux_no_separator "base64," post "" Hpost). }
    exists post. split; [|split].
    + left. exists pre. now repeat split.
    + rewrite Hp. apply Hx; rewrite Hs; [reflexivity | simpl; lia].
    + apply Hrun. rewrite Hp. apply Hx; rewrite Hs; [reflexivity | simpl; lia].
Qed.

Lemma decoded_text_witness :
  let payload := "data:image/png;base64,AAAAbase64,BBBB" in
  let req_body := Samples.body_of "imageData" (VStr payload) in
  exists data,
    Observed.between_markers payload data /\
    StabilityVariant.extract_base64 (VStr payload) = inr (VStr data) /\
    (w_write Samples.world = inr tt ->
     Observed.writes
       (snd (run Samples.world (StabilityVariant.save_image Samples.env req_body))) =
     [(StabilityVariant.path_join (StabilityVariant.uploadsDir Samples.env)
         (w_uuid Samples.world +:+ ".png"),
       Buffer_from (VStr data) "base64")]).
Proof.
  cbv zeta.
  apply (decoded_text_is_between_markers Samples.env Samples.world
           (Samples.body_of "imageData" (VStr "data:image/png;base64,AAAAbase64,BBBB"))
           "data:image/png;base64,AAAAbase64,BBBB").
  - reflexivity.
  - exists "data:image/png;", "AAAAbase64,BBBB". reflexivity.
Defined.

(** ** What [save-image] writes *)

(** X10.  [save-image] writes at most one file, and only the file
    [uploads/<uuid>.png] under the server directory.  It answers 200 exactly
    when that write was made and succeeded, and a 400 answer comes before any
    call: no identifier is drawn and nothing is written or logged. *)
Theorem save_image_writes_once
    (env : Env) (w : World) (req_body : Value) (r : Response) (calls : list Call) :
  run w (StabilityVariant.save_image env req_body) = (inr r, calls) ->
  (Observed.writes calls = [] \/
   exists buffer,
     Observed.writes calls =
     [(StabilityVariant.path_join (StabilityVariant.uploadsDir env) (w_uuid w +:+ ".png"),
       buffer)]) /\
  (status r = 200 <-> w_write w = inr tt /\ Observed.writes calls <> []) /\
  (status r = 400 -> calls = []).
Proof.
  unfold StabilityVariant.save_image. handler_cases.
  all: intros [= <- <-]; cbn [Observed.writes Observed.written map concat app status
                               res_json res_status_json].
  all: split; [first [left; reflexivity | right; eexists; reflexivity]|].
  all: repeat match goal with u : unit |- _ => destruct u end.
  all: split; [split; [intros; try discriminate
                      | intros [? ?]; simpl in *; try discriminate; try congruence]
              | intros; try discriminate; try reflexivity].
  all: try (split; [reflexivity | simpl; discriminate]).
Qed.

Lemma save_image_writes_witness :
  let req_body := Samples.body_of "imageData" (VStr "QUJD") in
  let r := res_json (VObj [("success", VBool true);
                           ("imageUrl",
                             VStr "https://pins.example.com/uploads/0b0e7a5c-1111-4222-8333-444455556666.png")]) in
  exists calls,
    run Samples.world (StabilityVariant.save_image Samples.env req_body) = (inr r, calls) /\
    (Observed.writes calls = [] \/
     exists buffer,
       Observed.writes calls =
       [(StabilityVariant.path_join (StabilityVariant.uploadsDir Samples.env)
           (w_uuid Samples.world +:+ ".png"), buffer)]) /\
    (status r = 200 <-> w_write Samples.world = inr tt /\ Observed.writes calls <> []) /\
    (status r = 400 -> calls = []).
Proof.
  cbv zeta. eexists. split; [vm_compute; reflexivity|].
  apply (save_image_writes_once Samples.env Samples.world
           (Samples.body_of "imageData" (VStr "QUJD"))).
  vm_compute. reflexivity.
Defined.

(** X11.  A truthy [imageData] that is a number, a boolean or an object has no
    [includes] method: [save-image] answers 500 after logging the
    [TypeError], draws no identifier and writes nothing. *)
Theorem save_image_rejects_non_text
    (env : Env) (w : World) (req_body imageData : Value) :
  JS.get req_body "imageData" = inr imageData ->
  JS.truthy imageData = true ->
  match imageData with VNum _ | VBool _ | VObj _ => True | _ => False end ->
  run w (StabilityVariant.save_image env req_body) =
  (inr (Observed.server_error "Failed to save image" "imageData.includes is not a function"),
   [call (console_error "Error saving image:"
            (TypeError "imageData.includes is not a function"))]).
Proof.
  intros Hget Ht Hkind. unfold StabilityVariant.save_image, JS.destructure. rewrite Hget. simpl.
  rewrite Ht. simpl. destruct imageData; try contradiction; reflexivity.
Qed.

Lemma save_image_non_text_witness :
  run Samples.world
    (StabilityVariant.save_image Samples.env (Samples.body_of "imageData" (VNum 7))) =
  (inr (Observed.server_error "Failed to save image" "imageData.includes is not a function"),
   [call (console_error "Error saving image:"
            (TypeError "imageData.includes is not a function"))]).
Proof.
  apply (save_image_rejects_non_text Samples.env Samples.world
           (Samples.body_of "imageData" (VNum 7)) (VNum 7));
    [reflexivity | reflexivity | exact I].
Defined.

(** ** The test route *)

Lemma get_of_truthy (v : Value) (p : string) :
  JS.truthy v = true -> exists x, JS.get v p = inr x.
Proof. destruct v; simpl; try discriminate; eauto. Qed.

(** X12.  [/test-stability] reports success as soon as the provider answers with a
    successful status and a JSON value that has properties, whether or not
    that value holds any artifact: the answer only says so in
    [imageGenerated].  The call asks for four samples of a fixed prompt. *)
Theorem test_route_reports_connection
    (env : Env) (w : World) (resp : FetchResponse) (result artifacts : Value) :
  w_fetch w = inr resp -> ok resp = true -> json resp = inr result ->
  JS.get result "artifacts" = inr artifacts ->
  exists count,
    run w (StabilityVariant.test_stability env) =
    (inr (res_json (VObj [("success", VBool true);
                          ("message", VStr "API connection successful");
                          ("imageGenerated", VBool (JS.truthy artifacts))])),
     [call (fetch StabilityVariant.api_url
              (StabilityVariant.fetch_init env (VStr "A simple blue circle") 4));
      call (console_log
              [VStr "API Response:";
               VObj [("status", VNum (http_status resp));
                     ("hasImages", VBool (JS.truthy artifacts));
                     ("numberOfImages", count)]])]).
Proof.
  intros Hfetch Hok Hjson Hart. unfold StabilityVariant.test_stability.
  simpl. rewrite Hfetch. simpl. rewrite Hok. simpl. rewrite Hjson. simpl.
  rewrite Hart. simpl. destruct (JS.truthy artifacts) eqn:Ht.
  - destruct (get_of_truthy artifacts "length" Ht) as [n Hn]. rewrite Hn. simpl.
    now exists n.
  - simpl. now exists (VNum 0).
Qed.

Lemma test_route_witness :
  exists count,
    run MoreSamples.world_empty_result (StabilityVariant.test_stability Samples.env) =
    (inr (res_json (VObj [("success", VBool true);
                          ("message", VStr "API connection successful");
                          ("imageGenerated", VBool (JS.truthy VUndefined))])),
     [call (fetch StabilityVariant.api_url
              (StabilityVariant.fetch_init Samples.env (VStr "A simple blue circle") 4));
      call (console_log
              [VStr "API Response:";
               VObj [("status", VNum 200);
                     ("hasImages", VBool (JS.truthy VUndefined));
                     ("numberOfImages", count)]])]).
Proof.
  apply (test_route_reports_connection Samples.env MoreSamples.world_empty_result
           {| ok := true; http_status := 200; json := inr (VObj []) |}
           (VObj []) VUndefined); reflexivity.
Defined.

(** ** Counting and serving *)

Lemma try_catch_answers (w : World) (p : Prog Response) (label err : string) :
  exists r calls, run w (try_catch p (on_error label err)) = (inr r, calls).
Proof. rewrite run_handler. destruct (run w p) as [[e|r] t]; eauto. Qed.

Lemma route_always_answers (env : Env) (w : World) (req : Request) :
  exists r calls, run w (route env req) = (inr r, calls).
Proof.
  unfold route, generate, save_image, test_stability.
  repeat match goal with
         | |- context [if ?b then _ else _] => destruct b
         end; first [apply try_catch_answers | eauto].
Qed.

Lemma limiters_count_daily (st : Stores) (key : string) (now : Z) :
  dailyStore (snd (limiters st key now)) !! key =
  Some (fst (RateLimit.increment dailyLimiter (dailyStore st) key now)).
Proof.
  unfold limiters. rewrite !rateLimit_eq.
  repeat match goal with
         | |- context [if ?b then _ else _] => destruct b
         end; cbn [snd dailyStore]; apply increment_lookup.
Qed.

(** X13.  With rate limiting enabled, every request whose body
    [express.json()] accepted, that is not a CORS preflight and that the
    static files middleware passes on (as it does every request outside the
    mount path [/uploads], so every request to a registered route) is
    counted, whatever becomes of it: the server always answers, the counters
    afterwards are those the limiters left, and the daily counter of the
    identity has been advanced, also when the answer is 400, 404, 429 or 500.
    The requests answered before the limiters are not counted: one that the
    static middleware redirects, as it does the bare mount path, and one
    whose body [express.json()] refuses. *)
Theorem every_request_is_counted (env : Env) (st : Stores) (w : World) :
  rate_limit_enabled env = true ->
  (forall req,
     method req <> OPTIONS -> GatewaySpec.passes_static w req ->
     exists r calls,
       run w (serve env st (Parsed req)) =
         (inr (r, snd (limiters st (ip req) (now req))), calls) /\
       dailyStore (snd (limiters st (ip req) (now req))) !! ip req =
       Some (fst (RateLimit.increment dailyLimiter (dailyStore st) (ip req) (now req)))) /\
  (forall req location,
     method req <> OPTIONS -> static_mount req = true ->
     w_static w = None -> w_redirect w = Some location ->
     run w (serve env st (Parsed req)) =
     (inr ({| status := 301; content := Moved location |}, st),
      [call (express_static (path req)); call (express_static_redirect (path req))])) /\
  (forall code page,
     run w (serve env st (Unparsed code page)) =
     (inr ({| status := code; content := Page page |}, st), [])).
Proof.
  intros Hon. split; [|split].
  - intros req Hm Hs. cbn [serve]. rewrite run_app_governed by assumption.
    unfold governor. rewrite Hon.
    pose proof (limiters_count_daily st (ip req) (now req)) as Hcount.
    destruct (limiters st (ip req) (now req)) as [[|rej] st'] eqn:Hl; cbn [snd] in *.
    + rewrite run_bind. destruct (route_always_answers env w req) as (r & calls & ->).
      simpl. eauto.
    + simpl. eauto.
  - intros req location Hm Hs Hfile Hdir. cbn [serve].
    rewrite app_not_options by assumption. rewrite Hs.
    cbn [trigger bind run answer]. rewrite Hfile.
    cbn [trigger bind run answer]. rewrite Hdir. reflexivity.
  - reflexivity.
Qed.

Lemma every_request_witness :
  let req := Samples.request POST "/Generate/"
               (Samples.body_of "prompt" (VStr "The Disney logo as a pin")) 1000 in
  let bare := Samples.request GET "/uploads" VUndefined 1000 in
  rate_limit_enabled Samples.env = true /\
  (exists r calls,
     run Samples.world (serve Samples.env no_counters (Parsed req)) =
       (inr (r, snd (limiters no_counters (ip req) (now req))), calls) /\
     dailyStore (snd (limiters no_counters (ip req) (now req))) !! ip req =
     Some (fst (RateLimit.increment dailyLimiter (dailyStore no_counters)
                  (ip req) (now req)))) /\
  run MoreSamples.world_with_directory (serve Samples.env no_counters (Parsed bare)) =
  (inr ({| status := 301; content := Moved "/uploads/" |}, no_counters),
   [call (express_static "/uploads"); call (express_static_redirect "/uploads")]).
Proof.
  cbv zeta. split; [reflexivity|]. split.
  - destruct (every_request_is_counted Samples.env no_counters Samples.world eq_refl)
      as (H & _ & _).
    apply (H (Samples.request POST "/Generate/"
                (Samples.body_of "prompt" (VStr "The Disney logo as a pin")) 1000)).
    + discriminate.
    + intros [=].
  - destruct (every_request_is_counted Samples.env no_counters
                MoreSamples.world_with_directory eq_refl) as (_ & H & _).
    apply (H (Samples.request GET "/uploads" VUndefined 1000) "/uploads/");
      [discriminate | reflexivity | reflexivity | reflexivity].
Defined.

Lemma stored_files_witness :
  let req := Samples.request GET "/uploads/0b0e7a5c-1111-4222-8333-444455556666.png"
               VUndefined 1000 in
  fst (limiters Samples.exhausted (ip req) (now req)) =
    RateLimit.Reject (GatewaySpec.too_many dailyLimiter) /\
  run MoreSamples.world_with_file (app Samples.env Samples.exhausted req) =
  (inr ({| status := 200; content := File (Buffer_from (VStr "QUJD") "base64") |},
        Samples.exhausted),
   [call (express_static (path req))]).
Proof.
  cbv zeta. split; [vm_compute; reflexivity|].
  apply (static_files_precede_limiters Samples.env Samples.exhausted
           (Samples.request GET "/uploads/0b0e7a5c-1111-4222-8333-444455556666.png"
              VUndefined 1000)
           MoreSamples.world_with_file).
  - discriminate.
  - reflexivity.
  - reflexivity.
Defined.

(** ** After the first minute *)

Lemma increment_expired (o : RateLimit.Options)
    (store : gmap string RateLimit.RateCounterState) (key : string) (now : Z)
    (c : RateLimit.RateCounterState) :
  store !! key = Some c -> RateLimit.resetTime c < now ->
  fst (RateLimit.increment o store key now) =
  {| RateLimit.count := 1; RateLimit.resetTime := now + RateLimit.windowMs o |}.
Proof.
  intros H Hnow. unfold RateLimit.increment. simpl. rewrite H.
  destruct (Z.ltb_spec (RateLimit.resetTime c) now); [reflexivity | lia].
Qed.

(** X15.  Requests that the burst limiter rejects still use up the hour.  When a
    fresh identity has sent [n] requests within one minute, a request that
    comes after that minute and within the hour is admitted exactly when
    [n + 1] is at most 50, however few of the [n] were admitted: after 50
    attempts in a minute, of which 20 passed, the identity is rejected with
    the hourly message until the hour ends. *)
Theorem burst_rejections_use_up_the_hour
    (st : Stores) (key : string) (t0 : Z) (hits : list (string * Z)) (t : Z) :
  GatewaySpec.fresh st key ->
  (forall t', In (key, t') hits -> t' < t0 + 60000) ->
  t0 + 60000 < t -> t <= t0 + 3600000 ->
  fst (limiters (after st ((key, t0) :: hits)) key t) =
  if 500 <? RateLimit.seen key hits + 2
  then RateLimit.Reject (GatewaySpec.too_many dailyLimiter)
  else if 50 <? RateLimit.seen key hits + 2
       then RateLimit.Reject (GatewaySpec.too_many hourlyLimiter)
       else RateLimit.Next.
Proof.
  intros Hfresh Hin Hlate Hhour.
  destruct (limiters_fresh st key t0 Hfresh) as [_ Hc]. cbn [after].
  assert (Hc' := after_counted hits _ key t0 1 ltac:(lia)
                   (fun t' Ht' => Z.lt_le_incl _ _ (Hin t' Ht')) Hc).
  assert (Hseen : 0 <= RateLimit.seen key hits) by (unfold RateLimit.seen; lia).
  generalize dependent (after (snd (limiters st key t0)) hits). intros st1 (Hd & Hh & Hb).
  unfold limiters. rewrite !rateLimit_eq.
  rewrite (increment_current dailyLimiter _ _ _ _ Hd) by (cbn [RateLimit.resetTime]; lia).
  rewrite (increment_current hourlyLimiter _ _ _ _ Hh) by (cbn [RateLimit.resetTime]; lia).
  rewrite (increment_expired burstLimiter _ _ _ _ Hb) by (cbn [RateLimit.resetTime]; lia).
  cbn [RateLimit.count].
  change (RateLimit.max dailyLimiter) with 500.
  change (RateLimit.max hourlyLimiter) with 50.
  change (RateLimit.max burstLimiter) with 20.
  replace (1 + RateLimit.seen key hits + 1) with (RateLimit.seen key hits + 2) by lia.
  destruct (Z.ltb_spec 500 (RateLimit.seen key hits + 2)); [reflexivity|].
  rewrite Z.min_l by lia.
  replace (1 + RateLimit.seen key hits + 1) with (RateLimit.seen key hits + 2) by lia.
  destruct (Z.ltb_spec 50 (RateLimit.seen key hits + 2)); reflexivity.
Qed.

Lemma burst_rejections_witness :
  let key := "203.0.113.7" in
  let earlier := repeat (key, 30000) 49 in
  fst (limiters (after no_counters ((key, 0) :: earlier)) key 61000) =
  RateLimit.Reject (GatewaySpec.too_many hourlyLimiter).
Proof.
  cbv zeta.
  rewrite (burst_rejections_use_up_the_hour no_counters "203.0.113.7" 0
             (repeat ("203.0.113.7", 30000) 49) 61000).
  - reflexivity.
  - repeat split; apply lookup_empty.
  - intros t' Ht'. apply repeat_spec in Ht'. injection Ht' as ->. lia.
  - lia.
  - lia.
Defined.

(** ** The limiter of the OpenAI variant *)

(** X16.  The OpenAI variant has one window of 24 hours with ceiling 25: the
    limiter admits the first request of a fresh identity, admits the request
    that follows [n] earlier ones within 24 hours exactly when [n + 1] is at
    most 25, and a rejected request is answered 429 without the route being
    run. *)
Theorem openai_limiter_ceiling :
  (forall store key t0 hits t,
     store !! key = None ->
     (forall t', In (key, t') hits -> t' < t0 + 86400000) ->
     t < t0 + 86400000 ->
     RateLimit.admits (fst (RateLimit.rateLimit OpenAIVariant.limiter store key t0)) = true /\
     RateLimit.admits
       (fst (RateLimit.rateLimit OpenAIVariant.limiter
               (RateLimit.after OpenAIVariant.limiter store ((key, t0) :: hits)) key t)) =
     (RateLimit.seen key hits + 2 <=? 25)) /\
  (forall store store' req w r,
     method req <> OPTIONS ->
     RateLimit.rateLimit OpenAIVariant.limiter store (ip req) (now req) =
       (RateLimit.Reject r, store') ->
     status r = 429 /\
     run w (OpenAIVariant.app store req) = (inr (r, store'), [])).
Proof.
  split.
  - intros store key t0 hits t Hfresh Hin Ht.
    destruct (fresh_identity OpenAIVariant.limiter store key t0 hits t Hfresh Hin Ht)
      as [H1 H2].
    split; [rewrite H1; reflexivity | exact H2].
  - intros store store' req w r Hm Hrej. split.
    + rewrite rateLimit_eq in Hrej.
      destruct (RateLimit.max OpenAIVariant.limiter <? _) in Hrej; [|discriminate].
      now injection Hrej as <- _.
    + unfold OpenAIVariant.app. rewrite Hrej. now destruct (method req).
Qed.

Lemma openai_limiter_witness :
  let key := "203.0.113.7" in
  let earlier := repeat (key, 3600000) 24 in
  RateLimit.admits (fst (RateLimit.rateLimit OpenAIVariant.limiter ∅ key 0)) = true /\
  RateLimit.admits
    (fst (RateLimit.rateLimit OpenAIVariant.limiter
            (RateLimit.after OpenAIVariant.limiter ∅ ((key, 0) :: earlier)) key 7200000)) =
  false.
Proof.
  cbv zeta.
  destruct openai_limiter_ceiling as [H _].
  destruct (H ∅ "203.0.113.7" 0 (repeat ("203.0.113.7", 3600000) 24) 7200000) as [H1 H2].
  - apply lookup_empty.
  - intros t' Ht'. apply repeat_spec in Ht'. injection Ht' as ->. lia.
  - lia.
  - split; [exact H1|]. rewrite H2. reflexivity.
Defined.
